(** * nanobot: the direct OpenAI-compatible provider

    A shallow embedding of [nanobot/providers/custom_provider.py]: the
    stream aggregator [_consume_stream], the non-stream parser [_parse] and
    the error boundary of [chat], with the properties of the response
    aggregation engine proved over them.

    Conventions of the embedding.
    - Python objects of the OpenAI client are records, one module per class,
      with the attribute names of the source.  An attribute that can be
      [None] is an [option].
    - A Python [dict] used as a map is a [gmap]; [str] is [string]; [int] is
      [Z].
    - An expression that can raise returns an [outcome]; exceptions are
      threaded through with the monad's bind.
    - The asynchronous chunk iterator is the finite list of the chunks it
      delivered, and the way it ended. *)

From Stdlib Require Import Ascii.
From stdpp Require Import base option list strings gmap fin_maps sorting.

Set Warnings "-register-all,-clear-no-such-hyp".

Open Scope Z_scope.

(** ** Python values *)

(** What a Python exception looks like from [chat]: whether it is an
    instance of [Exception] (the clause [except Exception] tests that), and
    what [str(e)] is.  Task cancellation, [KeyboardInterrupt] and
    [SystemExit] derive from [BaseException] only. *)
Record exn := Exn { is_Exception : bool; str : string }.

Inductive outcome (A : Type) : Type :=
  | Ret (a : A)
  | Raise (e : exn).
Arguments Ret {A} a.
Arguments Raise {A} e.

#[global] Instance outcome_ret : MRet outcome := fun A a => Ret a.
#[global] Instance outcome_bind : MBind outcome := fun A B f m =>
  match m with
  | Ret a => f a
  | Raise e => Raise e
  end.
#[global] Instance outcome_fmap : FMap outcome := fun A B f m =>
  match m with
  | Ret a => Ret (f a)
  | Raise e => Raise e
  end.

(** [try: body  except Exception as e: handler(e)] *)
Definition try_except {A} (body : outcome A) (handler : exn → outcome A) : outcome A :=
  match body with
  | Ret a => Ret a
  | Raise e => if is_Exception e then handler e else Raise e
  end.

(** [l[0]] *)
Definition IndexError : exn :=
  {| is_Exception := true; str := "list index out of range" |}.

Definition first_item {A} (l : list A) : outcome A :=
  match l with
  | x :: _ => Ret x
  | [] => Raise IndexError
  end.

(** Truthiness of a [str]: every string but the empty one. *)
Definition truthy (s : string) : bool :=
  match s with
  | EmptyString => false
  | String _ _ => true
  end.

(** Truthiness of an attribute that is a [str] or [None]. *)
Definition truthy_str (o : option string) : option string :=
  match o with
  | Some s => if truthy s then Some s else None
  | None => None
  end.

(** [s or None] *)
Definition or_None (s : string) : option string :=
  if truthy s then Some s else None.

(** [sep.join(parts)] *)
Definition join (sep : string) (parts : list string) : string :=
  String.concat sep parts.

(** The values a JSON decoder returns.  Numbers are integers here: the
    development never looks inside a decoded value. *)
Inductive json : Type :=
  | JNull
  | JBool (b : bool)
  | JInt (n : Z)
  | JStr (s : string)
  | JList (items : list json)
  | JDict (members : list (string * json)).

(** [{}] *)
Definition empty_dict : json := JDict [].

Definition is_dict (v : json) : bool :=
  match v with
  | JDict _ => true
  | _ => false
  end.

(** ** The objects of the OpenAI client *)

Module Usage.
Record t := Make { prompt_tokens : Z; completion_tokens : Z; total_tokens : Z }.
End Usage.

Module FunctionDelta.
Record t := Make { name : option string; arguments : option string }.
End FunctionDelta.

Module ToolCallDelta.
Record t := Make {
  index : Z;
  id : option string;
  function : option FunctionDelta.t }.
End ToolCallDelta.

Module Delta.
Record t := Make {
  content : option string;
  reasoning_content : option string;
  tool_calls : option (list ToolCallDelta.t) }.
End Delta.

Module StreamChoice.
Record t := Make { finish_reason : option string; delta : option Delta.t }.
End StreamChoice.

Module Chunk.
Record t := Make { choices : list StreamChoice.t; usage : option Usage.t }.
End Chunk.

(** [tc.function.arguments] of a complete tool call: a [str], or a value
    that is structured already. *)
Inductive call_arguments : Type :=
  | ArgStr (s : string)
  | ArgValue (v : json).

Module Function.
Record t := Make { name : string; arguments : call_arguments }.
End Function.

Module ToolCall.
Record t := Make { id : string; function : Function.t }.
End ToolCall.

Module Message.
Record t := Make {
  content : option string;
  tool_calls : option (list ToolCall.t);
  reasoning_content : option string }.
End Message.

Module Choice.
Record t := Make { message : Message.t; finish_reason : option string }.
End Choice.

Module Completion.
Record t := Make { choices : list Choice.t; usage : option Usage.t }.
End Completion.

(** The asynchronous iterator [create(stream=True)] returns: the chunks it
    yields and then either exhaustion or the exception the transport raised
    while the next chunk was awaited. *)
Record stream := Stream { delivered : list Chunk.t; failure : option exn }.

(** ** The provider's own types *)

Module ToolCallRequest.
(** Modelled from the spec: the dataclass [ToolCallRequest] of
    [nanobot.providers.base], whose declaration is not part of the source
    under study.  It has the fields the provider passes: the call
    identifier, the tool name and the arguments as a decoded value. *)
Record t := Make { id : string; name : string; arguments : json }.
End ToolCallRequest.

Module LLMResponse.
(** Modelled from the spec: the dataclass [LLMResponse] of
    [nanobot.providers.base], whose declaration is not part of the source
    under study.  Fields and defaults follow the NormalizedResponse of the
    specification: no tool calls is the empty sequence, finish reason
    defaults to "stop", usage to the empty mapping, reasoning to absent. *)
Record t := Make {
  content : option string;
  tool_calls : list ToolCallRequest.t;
  finish_reason : string;
  usage : gmap string Z;
  reasoning_content : option string }.

(** [LLMResponse(content=c, finish_reason=fr)] *)
Definition with_defaults (c : option string) (fr : string) : t :=
  {| content := c; tool_calls := []; finish_reason := fr;
     usage := ∅; reasoning_content := None |}.
End LLMResponse.

(** [{"prompt_tokens": u.prompt_tokens, "completion_tokens":
    u.completion_tokens, "total_tokens": u.total_tokens}] *)
Definition usage_dict (u : Usage.t) : gmap string Z :=
  <["prompt_tokens" := Usage.prompt_tokens u]>
    (<["completion_tokens" := Usage.completion_tokens u]>
       (<["total_tokens" := Usage.total_tokens u]> ∅)).

(** ** The stream aggregator's state *)

(** One value of [tool_calls_by_index]:
    [{"id": ..., "name": ..., "arguments": ...}]. *)
Module Entry.
Record t := Make { id : string; name : string; arguments : string }.
Definition fresh : t := {| id := ""; name := ""; arguments := "" |}.
End Entry.

(** The local variables of [_consume_stream]. *)
Module Agg.
Record t := Make {
  content_parts : list string;
  tool_calls_by_index : gmap Z Entry.t;
  finish_reason : string;
  usage : gmap string Z;
  reasoning_parts : list string }.

Definition init : t :=
  {| content_parts := []; tool_calls_by_index := ∅; finish_reason := "stop";
     usage := ∅; reasoning_parts := [] |}.
End Agg.

(** The body of [for tc_delta in delta.tool_calls]. *)
Definition merge_tool_call (by_index : gmap Z Entry.t) (tc_delta : ToolCallDelta.t)
  : gmap Z Entry.t :=
  let idx := ToolCallDelta.index tc_delta in
  let by_index :=
    match by_index !! idx with
    | Some _ => by_index
    | None => <[idx := Entry.fresh]> by_index
    end in
  let entry := default Entry.fresh (by_index !! idx) in
  let entry :=
    match truthy_str (ToolCallDelta.id tc_delta) with
    | Some i => Entry.Make i (Entry.name entry) (Entry.arguments entry)
    | None => entry
    end in
  let entry :=
    match ToolCallDelta.function tc_delta with
    | Some fn =>
        let entry :=
          match truthy_str (FunctionDelta.name fn) with
          | Some n => Entry.Make (Entry.id entry) n (Entry.arguments entry)
          | None => entry
          end in
        match truthy_str (FunctionDelta.arguments fn) with
        | Some a =>
            Entry.Make (Entry.id entry) (Entry.name entry) (Entry.arguments entry +:+ a)
        | None => entry
        end
    | None => entry
    end in
  <[idx := entry]> by_index.

(** [if delta.tool_calls: for tc_delta in delta.tool_calls: ...] *)
Definition merge_tool_calls (by_index : gmap Z Entry.t)
    (tcs : option (list ToolCallDelta.t)) : gmap Z Entry.t :=
  match tcs with
  | Some l => fold_left merge_tool_call l by_index
  | None => by_index
  end.

(** One iteration of [async for chunk in stream]. *)
Definition step (st : Agg.t) (chunk : Chunk.t) : Agg.t :=
  match Chunk.choices chunk with
  | [] =>
      match Chunk.usage chunk with
      | Some u =>
          Agg.Make (Agg.content_parts st) (Agg.tool_calls_by_index st)
                   (Agg.finish_reason st) (usage_dict u) (Agg.reasoning_parts st)
      | None => st
      end
  | choice :: _ =>
      let finish_reason :=
        match truthy_str (StreamChoice.finish_reason choice) with
        | Some fr => fr
        | None => Agg.finish_reason st
        end in
      match StreamChoice.delta choice with
      | None =>
          Agg.Make (Agg.content_parts st) (Agg.tool_calls_by_index st)
                   finish_reason (Agg.usage st) (Agg.reasoning_parts st)
      | Some delta =>
          let content_parts :=
            match truthy_str (Delta.content delta) with
            | Some c => Agg.content_parts st ++ [c]
            | None => Agg.content_parts st
            end in
          let reasoning_parts :=
            match truthy_str (Delta.reasoning_content delta) with
            | Some rc => Agg.reasoning_parts st ++ [rc]
            | None => Agg.reasoning_parts st
            end in
          let by_index :=
            merge_tool_calls (Agg.tool_calls_by_index st) (Delta.tool_calls delta) in
          Agg.Make content_parts by_index finish_reason (Agg.usage st) reasoning_parts
      end
  end.

(** The loop. *)
Definition aggregate (chunks : list Chunk.t) : Agg.t :=
  fold_left step chunks Agg.init.

(** [sorted(tool_calls_by_index.items())].  Python compares the pairs; the
    keys of a dict are distinct, so the key decides every comparison. *)
Definition key_le (a b : Z * Entry.t) : Prop := a.1 ≤ b.1.

#[global] Instance key_le_dec : RelDecision key_le.
Proof. intros a b. unfold key_le. apply _. Defined.

Definition sorted_items (by_index : gmap Z Entry.t) : list (Z * Entry.t) :=
  merge_sort key_le (map_to_list by_index).

(** ** What a chunk sequence carries

    The chunk sequence seen from outside the loop: the substrings, finish
    reasons, usage signals and tool-call fragments it delivers, in arrival
    order.  The aggregator reads the first choice of a chunk only. *)

Definition first_choice (chunk : Chunk.t) : option StreamChoice.t :=
  head (Chunk.choices chunk).

Definition chunk_delta (chunk : Chunk.t) : option Delta.t :=
  first_choice chunk ≫= StreamChoice.delta.

Definition content_substrings (chunks : list Chunk.t) : list string :=
  omap (λ chunk, chunk_delta chunk ≫= Delta.content) chunks.

Definition reasoning_substrings (chunks : list Chunk.t) : list string :=
  omap (λ chunk, chunk_delta chunk ≫= Delta.reasoning_content) chunks.

(** The non-empty finish reason a chunk carries, if any. *)
Definition chunk_finish_reason (chunk : Chunk.t) : option string :=
  first_choice chunk ≫= λ choice, truthy_str (StreamChoice.finish_reason choice).

Definition finish_reasons (chunks : list Chunk.t) : list string :=
  omap chunk_finish_reason chunks.

(** The usage object of a chunk without choices. *)
Definition usage_signal (chunk : Chunk.t) : option Usage.t :=
  match Chunk.choices chunk with
  | [] => Chunk.usage chunk
  | _ :: _ => None
  end.

Definition usage_signals (chunks : list Chunk.t) : list Usage.t :=
  omap usage_signal chunks.

Definition chunk_fragments (chunk : Chunk.t) : list ToolCallDelta.t :=
  default [] (chunk_delta chunk ≫= Delta.tool_calls).

(** Every tool-call fragment of the sequence. *)
Definition fragments (chunks : list Chunk.t) : list ToolCallDelta.t :=
  chunks ≫= chunk_fragments.

Definition at_index (i : Z) (fs : list ToolCallDelta.t) : list ToolCallDelta.t :=
  filter (λ tc_delta, ToolCallDelta.index tc_delta = i) fs.

(** The fragments of the sequence that carry index [i]. *)
Definition fragments_at (i : Z) (chunks : list Chunk.t) : list ToolCallDelta.t :=
  at_index i (fragments chunks).

Definition supplied_ids (fs : list ToolCallDelta.t) : list string :=
  omap (λ tc_delta, truthy_str (ToolCallDelta.id tc_delta)) fs.

Definition supplied_names (fs : list ToolCallDelta.t) : list string :=
  omap (λ tc_delta, ToolCallDelta.function tc_delta
                      ≫= λ fn, truthy_str (FunctionDelta.name fn)) fs.

Definition argument_substrings (fs : list ToolCallDelta.t) : list string :=
  omap (λ tc_delta, ToolCallDelta.function tc_delta ≫= FunctionDelta.arguments) fs.

(** The argument string a run of fragments adds up to. *)
Definition accumulated_arguments (fs : list ToolCallDelta.t) : string :=
  join "" (argument_substrings fs).

(** The entry a run of fragments of one index adds up to: the last id and
    name supplied, the argument substrings joined in arrival order. *)
Definition entry_of (fs : list ToolCallDelta.t) : Entry.t :=
  {| Entry.id := default "" (last (supplied_ids fs));
     Entry.name := default "" (last (supplied_names fs));
     Entry.arguments := accumulated_arguments fs |}.

(** What [tool_calls_by_index] holds at an index, given the fragments that
    carry it: nothing before the first one. *)
Definition entry_view (fs : list ToolCallDelta.t) : option Entry.t :=
  match fs with
  | [] => None
  | _ :: _ => Some (entry_of fs)
  end.

(** The map agrees with the fragments [fs] seen so far. *)
Definition tracks (by_index : gmap Z Entry.t) (fs : list ToolCallDelta.t) : Prop :=
  ∀ i, by_index !! i = entry_view (at_index i fs).

(** What one more fragment does to the entry of its index. *)
Definition extend (entry : Entry.t) (tc_delta : ToolCallDelta.t) : Entry.t :=
  {| Entry.id := default (Entry.id entry) (truthy_str (ToolCallDelta.id tc_delta));
     Entry.name :=
       default (Entry.name entry)
               (ToolCallDelta.function tc_delta
                  ≫= λ fn, truthy_str (FunctionDelta.name fn));
     Entry.arguments :=
       Entry.arguments entry
       +:+ default "" (ToolCallDelta.function tc_delta ≫= FunctionDelta.arguments) |}.

(** ** Reference decoders

    Concrete decoders, to run the provider on examples.  [json_loads] is a
    strict decoder for the JSON of the examples: objects, arrays, strings
    without escapes, integers, [true], [false] and [null].
    [repair_nothing] answers like the strict decoder where it succeeds and
    otherwise gives the empty string, the value a repairing decoder is left
    with when no structure can be recovered from its input;
    [strict_or_raise] raises there instead. *)
Module Reference.
Definition quote : ascii := "034"%char.
Definition backslash : ascii := "092"%char.

Definition is_ws (c : ascii) : bool :=
  bool_decide (c = " "%char) || bool_decide (c = "009"%char)
  || bool_decide (c = "010"%char) || bool_decide (c = "013"%char).

Fixpoint skip_ws (s : string) : string :=
  match s with
  | String c r => if is_ws c then skip_ws r else s
  | EmptyString => s
  end.

(** The characters of a string literal, after its opening quote. *)
Fixpoint parse_chars (s : string) : option (string * string) :=
  match s with
  | EmptyString => None
  | String c r =>
      if bool_decide (c = quote) then Some (EmptyString, r)
      else if bool_decide (c = backslash) then None
      else '(body, rest) ← parse_chars r; Some (String c body, rest)
  end.

Definition digit (c : ascii) : option Z :=
  let n := Z.of_nat (nat_of_ascii c) in
  if bool_decide (48 ≤ n ≤ 57) then Some (n - 48) else None.

Fixpoint parse_digits (acc : Z) (s : string) : Z * string :=
  match s with
  | String c r =>
      match digit c with
      | Some d => parse_digits (10 * acc + d) r
      | None => (acc, s)
      end
  | EmptyString => (acc, s)
  end.

(** An integer without sign: one zero, or digits that start with a
    non-zero one. *)
Definition parse_nat (s : string) : option (Z * string) :=
  match s with
  | String c r =>
      match digit c with
      | Some 0 => Some (0, r)
      | Some d => Some (parse_digits d r)
      | None => None
      end
  | EmptyString => None
  end.

Definition strip_prefix (p s : string) : option string :=
  if String.prefix p s
  then Some (String.substring (String.length p) (String.length s - String.length p) s)
  else None.

Fixpoint parse_value (fuel : nat) (s : string) {struct fuel} : option (json * string) :=
  match fuel with
  | O => None
  | S fuel =>
      match skip_ws s with
      | String "{" r =>
          match skip_ws r with
          | String "}" r' => Some (JDict [], r')
          | r' => '(kvs, rest) ← parse_members fuel r'; Some (JDict kvs, rest)
          end
      | String "[" r =>
          match skip_ws r with
          | String "]" r' => Some (JList [], r')
          | r' => '(vs, rest) ← parse_items fuel r'; Some (JList vs, rest)
          end
      | String "034" r => '(body, rest) ← parse_chars r; Some (JStr body, rest)
      | String "-" r => '(n, rest) ← parse_nat r; Some (JInt (- n), rest)
      | String "t" _ => rest ← strip_prefix "true" (skip_ws s); Some (JBool true, rest)
      | String "f" _ => rest ← strip_prefix "false" (skip_ws s); Some (JBool false, rest)
      | String "n" _ => rest ← strip_prefix "null" (skip_ws s); Some (JNull, rest)
      | s' => '(n, rest) ← parse_nat s'; Some (JInt n, rest)
      end
  end
with parse_members (fuel : nat) (s : string) {struct fuel}
    : option (list (string * json) * string) :=
  match fuel with
  | O => None
  | S fuel =>
      match skip_ws s with
      | String "034" r =>
          '(k, r1) ← parse_chars r;
          match skip_ws r1 with
          | String ":" r2 =>
              '(v, r3) ← parse_value fuel r2;
              match skip_ws r3 with
              | String "," r4 =>
                  '(kvs, r5) ← parse_members fuel r4; Some ((k, v) :: kvs, r5)
              | String "}" r4 => Some ([(k, v)], r4)
              | _ => None
              end
          | _ => None
          end
      | _ => None
      end
  end
with parse_items (fuel : nat) (s : string) {struct fuel}
    : option (list json * string) :=
  match fuel with
  | O => None
  | S fuel =>
      '(v, r1) ← parse_value fuel s;
      match skip_ws r1 with
      | String "," r2 => '(vs, r3) ← parse_items fuel r2; Some (v :: vs, r3)
      | String "]" r2 => Some ([v], r2)
      | _ => None
      end
  end.

(** The strict decoder: one value, and nothing but white space after it. *)
Definition json_loads (s : string) : option json :=
  '(v, rest) ← parse_value (S (String.length s)) s;
  match skip_ws rest with
  | EmptyString => Some v
  | String _ _ => None
  end.

Definition repair_nothing (s : string) : outcome json :=
  match json_loads s with
  | Some v => Ret v
  | None => Ret (JStr "")
  end.

(** A decoder that gives up with an exception on what it cannot read. *)
Definition JSONDecodeError : exn :=
  {| is_Exception := true; str := "Expecting value" |}.

Definition strict_or_raise (s : string) : outcome json :=
  match json_loads s with
  | Some v => Ret v
  | None => Raise JSONDecodeError
  end.
End Reference.

Section provider.
(** [json_repair.loads]: the lenient decoder of the [json_repair] package,
    which is not part of the repository.  It is a parameter of the
    provider; it returns a value of any JSON type, or raises. *)
Variable json_repair_loads : string → outcome json.

(** [json_repair.loads(tc["arguments"]) if tc["arguments"] else {}] *)
Definition stream_arguments (s : string) : outcome json :=
  if truthy s then json_repair_loads s else Ret empty_dict.

(** The [ToolCallRequest(...)] of the comprehension in [_consume_stream]. *)
Definition assemble (tc : Entry.t) : outcome ToolCallRequest.t :=
  args ← stream_arguments (Entry.arguments tc);
  mret (ToolCallRequest.Make (Entry.id tc) (Entry.name tc) args).

Definition _consume_stream (s : stream) : outcome LLMResponse.t :=
  let st := aggregate (delivered s) in
  match failure s with
  | Some e => Raise e
  | None =>
      tool_calls ← mapM (λ item, assemble item.2)
                        (sorted_items (Agg.tool_calls_by_index st));
      mret {| LLMResponse.content := or_None (join "" (Agg.content_parts st));
              LLMResponse.tool_calls := tool_calls;
              LLMResponse.finish_reason := Agg.finish_reason st;
              LLMResponse.usage := Agg.usage st;
              LLMResponse.reasoning_content :=
                or_None (join "" (Agg.reasoning_parts st)) |}
  end.

(** [json_repair.loads(a) if isinstance(a, str) else a] *)
Definition parse_arguments (a : call_arguments) : outcome json :=
  match a with
  | ArgStr s => json_repair_loads s
  | ArgValue v => Ret v
  end.

(** The [ToolCallRequest(...)] of the comprehension in [_parse]. *)
Definition convert (tc : ToolCall.t) : outcome ToolCallRequest.t :=
  args ← parse_arguments (Function.arguments (ToolCall.function tc));
  mret (ToolCallRequest.Make (ToolCall.id tc) (Function.name (ToolCall.function tc)) args).

Definition _parse (response : Completion.t) : outcome LLMResponse.t :=
  choice ← first_item (Completion.choices response);
  let msg := Choice.message choice in
  tool_calls ← mapM convert (default [] (Message.tool_calls msg));
  mret {| LLMResponse.content := Message.content msg;
          LLMResponse.tool_calls := tool_calls;
          LLMResponse.finish_reason :=
            default "stop" (truthy_str (Choice.finish_reason choice));
          LLMResponse.usage :=
            match Completion.usage response with
            | Some u => usage_dict u
            | None => ∅
            end;
          LLMResponse.reasoning_content :=
            truthy_str (Message.reasoning_content msg) |}.

(** [LLMResponse(content=f"Error: {e}", finish_reason="error")] *)
Definition error_response (e : exn) : LLMResponse.t :=
  LLMResponse.with_defaults (Some ("Error: " +:+ str e)) "error".
End provider.

(** ** Sample traffic

    Streams and completion objects of the shapes an OpenAI-compatible
    backend sends, to run the provider on. *)
Module Samples.
Definition q : string := String Reference.quote "".

(** The three pieces of the argument text of a call to [get_weather]:
    an object with members [a] = 1 and [b] = 2, cut after the first colon
    and after the second. *)
Definition piece1 : string := "{" +:+ q +:+ "a" +:+ q +:+ ":".
Definition piece2 : string := "1," +:+ q +:+ "b" +:+ q +:+ ":".
Definition piece3 : string := "2}".

Definition fragment (i : Z) (id name args : option string) : ToolCallDelta.t :=
  ToolCallDelta.Make i id (Some (FunctionDelta.Make name args)).

Definition delta_chunk (fr : option string) (d : Delta.t) : Chunk.t :=
  Chunk.Make [StreamChoice.Make fr (Some d)] None.

Definition text_chunk (c : string) : Chunk.t :=
  delta_chunk None (Delta.Make (Some c) None None).

Definition reasoning_chunk (rc : string) : Chunk.t :=
  delta_chunk None (Delta.Make None (Some rc) None).

Definition tools_chunk (l : list ToolCallDelta.t) : Chunk.t :=
  delta_chunk None (Delta.Make None None (Some l)).

Definition usage_chunk (u : Usage.t) : Chunk.t := Chunk.Make [] (Some u).

(** A chunk that carries choices and a usage object at once. *)
Definition mixed_chunk : Chunk.t :=
  Chunk.Make [StreamChoice.Make None (Some (Delta.Make (Some "Hi") None None))]
             (Some (Usage.Make 5 1 6)).

(** A chunk whose finish reason is the empty string and whose delta is
    absent. *)
Definition bare_chunk : Chunk.t := Chunk.Make [StreamChoice.Make (Some "") None] None.

(** A tool-call turn: index 1 arrives before index 0, the arguments of
    index 0 come in three pieces, index 4 never gets an id or a name, and
    the finish reason is followed by a chunk that has none. *)
Definition tool_turn : list Chunk.t :=
  [ tools_chunk [fragment 1 (Some "call_2") (Some "get_time") None];
    tools_chunk [fragment 0 (Some "call_1") (Some "get_weather") (Some piece1)];
    tools_chunk [fragment 0 None None (Some piece2);
                 ToolCallDelta.Make 4 None None];
    delta_chunk (Some "tool_calls")
                (Delta.Make None None (Some [fragment 0 None (Some "") (Some piece3)]));
    bare_chunk;
    usage_chunk (Usage.Make 12 7 19) ].

Definition tool_turn_response : LLMResponse.t :=
  {| LLMResponse.content := None;
     LLMResponse.tool_calls :=
       [ ToolCallRequest.Make "call_1" "get_weather"
                              (JDict [("a", JInt 1); ("b", JInt 2)]);
         ToolCallRequest.Make "call_2" "get_time" empty_dict;
         ToolCallRequest.Make "" "" empty_dict ];
     LLMResponse.finish_reason := "tool_calls";
     LLMResponse.usage := usage_dict (Usage.Make 12 7 19);
     LLMResponse.reasoning_content := None |}.

(** A text turn with a reasoning channel and no usage report. *)
Definition text_turn : list Chunk.t :=
  [ reasoning_chunk "think";
    text_chunk "Hel";
    Chunk.Make [] None;
    text_chunk "";
    delta_chunk (Some "stop") (Delta.Make (Some "lo") None None) ].

Definition text_turn_response : LLMResponse.t :=
  {| LLMResponse.content := Some "Hello";
     LLMResponse.tool_calls := [];
     LLMResponse.finish_reason := "stop";
     LLMResponse.usage := ∅;
     LLMResponse.reasoning_content := Some "think" |}.

(** A turn whose only content is the empty string. *)
Definition silent_turn : list Chunk.t := [ text_chunk ""; reasoning_chunk "" ].

(** A tool call whose argument text is beyond repair. *)
Definition garbled : string := "???".

Definition garbled_turn : list Chunk.t :=
  [ tools_chunk [fragment 0 (Some "call_1") (Some "get_weather") (Some garbled)] ].

(** A completion object without usage and without finish reason, with one
    tool call whose arguments are a string. *)
Definition completion : Completion.t :=
  Completion.Make
    [ Choice.Make
        (Message.Make None
           (Some [ToolCall.Make "call_1"
                     (Function.Make "get_weather" (ArgStr (piece1 +:+ piece2 +:+ piece3)))])
           None)
        None ]
    None.

Definition completion_response : LLMResponse.t :=
  {| LLMResponse.content := None;
     LLMResponse.tool_calls :=
       [ ToolCallRequest.Make "call_1" "get_weather"
                              (JDict [("a", JInt 1); ("b", JInt 2)]) ];
     LLMResponse.finish_reason := "stop";
     LLMResponse.usage := ∅;
     LLMResponse.reasoning_content := None |}.

(** The transport breaks after two chunks. *)
Definition ConnectionError : exn :=
  {| is_Exception := true; str := "Connection error." |}.

Definition broken_stream : stream :=
  Stream [text_chunk "Hel"; text_chunk "lo"] (Some ConnectionError).

Definition tool_stream : stream := Stream tool_turn None.
Definition text_stream : stream := Stream text_turn None.
Definition silent_stream : stream := Stream silent_turn None.
Definition garbled_stream : stream := Stream garbled_turn None.

Definition garbled_response : LLMResponse.t :=
  {| LLMResponse.content := None;
     LLMResponse.tool_calls :=
       [ ToolCallRequest.Make "call_1" "get_weather" (JStr "") ];
     LLMResponse.finish_reason := "stop";
     LLMResponse.usage := ∅;
     LLMResponse.reasoning_content := None |}.
End Samples.

(** ** The request and the provider object *)

(** A Python [float]: the 64 bits of the IEEE 754 double it is.  The
    provider hands the temperature on and computes nothing with it. *)
Record float := Binary64 { bits : Z }.

(** The literal [0.7]: the double nearest to seven tenths. *)
Definition float_0_7 : float := Binary64 0x3FE6666666666666.

(** A value of the keyword dictionary that [chat] hands to the completion
    source.  Messages and tool descriptions are lists of JSON objects. *)
Inductive kwarg : Type :=
  | KStr (s : string)
  | KInt (n : Z)
  | KFloat (x : float)
  | KBool (b : bool)
  | KList (items : list json)
  | KDict (members : list (string * kwarg)).

(** What [create] returns: the asynchronous chunk iterator when a stream
    was asked for, the completion object otherwise.  The provider does not
    test which one it got. *)
Inductive api_response : Type :=
  | AsyncStream (s : stream)
  | ChatCompletion (c : Completion.t).

(** [async for chunk in stream] over an object that is no asynchronous
    iterator. *)
Definition TypeError : exn :=
  {| is_Exception := true;
     str := "'async for' requires an object with __aiter__ method, got ChatCompletion" |}.

(** [response.choices] on an object that has no such attribute. *)
Definition AttributeError : exn :=
  {| is_Exception := true;
     str := "'AsyncStream' object has no attribute 'choices'" |}.

Module CustomProvider.
(** The attributes that [__init__] sets in this file.  [_client] is the
    [create] method of the client object. *)
Record t := Make {
  default_model : string;
  stream : bool;
  _client : gmap string kwarg → outcome api_response }.

Section methods.
(** [AsyncOpenAI(api_key=..., base_url=...)], of the [openai] package. *)
Variable AsyncOpenAI : string → string → gmap string kwarg → outcome api_response.

(** [LLMProvider._sanitize_empty_content], of [nanobot.providers.base]: not
    part of the source under study, and taken as it comes.  It is called
    before the [try] of [chat]. *)
Variable _sanitize_empty_content : list json → outcome (list json).

Variable json_repair_loads : string → outcome json.

(** An omitted argument is [None]; the defaults are those of the
    signature. *)
Definition __init__ (api_key api_base default_model : option string)
    (stream : option bool) : t :=
  {| default_model := default "default" default_model;
     stream := default false stream;
     _client := AsyncOpenAI (default "no-key" api_key)
                            (default "http://localhost:8000/v1" api_base) |}.

Definition get_default_model (self : t) : string := default_model self.

(** The dictionary [kwargs] of [chat], once the messages are sanitized. *)
Definition request_kwargs (self : t) (sanitized : list json)
    (tools : option (list json)) (model : option string) (max_tokens : Z)
    (temperature : float) (reasoning_effort : option string) : gmap string kwarg :=
  let kwargs : gmap string kwarg :=
    <["model" := KStr (default (default_model self) (truthy_str model))]>
      (<["messages" := KList sanitized]>
         (<["max_tokens" := KInt (Z.max 1 max_tokens)]>
            (<["temperature" := KFloat temperature]> ∅))) in
  let kwargs :=
    match truthy_str reasoning_effort with
    | Some effort => <["reasoning_effort" := KStr effort]> kwargs
    | None => kwargs
    end in
  let kwargs :=
    match tools with
    | Some (tool :: rest) =>
        <["tool_choice" := KStr "auto"]> (<["tools" := KList (tool :: rest)]> kwargs)
    | Some [] | None => kwargs
    end in
  if stream self
  then <["stream_options" := KDict [("include_usage", KBool true)]]>
         (<["stream" := KBool true]> kwargs)
  else kwargs.

(** [await self._consume_stream(response)] *)
Definition consume_response (response : api_response) : outcome LLMResponse.t :=
  match response with
  | AsyncStream s => _consume_stream json_repair_loads s
  | ChatCompletion _ => Raise TypeError
  end.

(** [self._parse(response)] *)
Definition parse_response (response : api_response) : outcome LLMResponse.t :=
  match response with
  | ChatCompletion c => _parse json_repair_loads c
  | AsyncStream _ => Raise AttributeError
  end.

Definition chat (self : t) (messages : list json) (tools : option (list json))
    (model : option string) (max_tokens : option Z) (temperature : option float)
    (reasoning_effort : option string) : outcome LLMResponse.t :=
  let max_tokens := default 4096 max_tokens in
  let temperature := default float_0_7 temperature in
  sanitized ← _sanitize_empty_content messages;
  let kwargs :=
    request_kwargs self sanitized tools model max_tokens temperature reasoning_effort in
  try_except
    (response ← _client self kwargs;
     if stream self then consume_response response else parse_response response)
    (λ e, Ret (error_response e)).
End methods.
End CustomProvider.

(** The keys [chat] can put into the keyword dictionary. *)
Definition mandatory_keys : gset string :=
  {[ "model"; "messages"; "max_tokens"; "temperature" ]}.

Definition optional_keys : gset string :=
  {[ "reasoning_effort"; "tools"; "tool_choice"; "stream"; "stream_options" ]}.

(** ** Chunks that leave no trace *)

Definition falsy (o : option string) : bool :=
  match truthy_str o with
  | Some _ => false
  | None => true
  end.

(** A chunk that neither reports usage nor carries, in its first choice, a
    finish reason, text, reasoning or tool-call fragment: a keep-alive, a
    choice without delta, a delta of empty strings. *)
Definition carries_nothing (chunk : Chunk.t) : bool :=
  match Chunk.choices chunk with
  | [] =>
      match Chunk.usage chunk with
      | Some _ => false
      | None => true
      end
  | choice :: _ =>
      falsy (StreamChoice.finish_reason choice)
      && match StreamChoice.delta choice with
         | None => true
         | Some delta =>
             falsy (Delta.content delta)
             && falsy (Delta.reasoning_content delta)
             && match Delta.tool_calls delta with
                | Some (_ :: _) => false
                | Some [] | None => true
                end
         end
  end.

(** The chunk cut down to what the loop reads: the first choice, and the
    usage object only when there is no choice. *)
Definition first_choice_only (chunk : Chunk.t) : Chunk.t :=
  match Chunk.choices chunk with
  | [] => chunk
  | choice :: _ => Chunk.Make [choice] None
  end.

(** The three keys of a usage mapping. *)
Definition usage_keys : gset string :=
  {[ "prompt_tokens"; "completion_tokens"; "total_tokens" ]}.

(** The shape every response has, whatever path made it. *)
Definition well_formed_response (r : LLMResponse.t) : Prop :=
  LLMResponse.finish_reason r ≠ ""
  ∧ LLMResponse.reasoning_content r ≠ Some ""
  ∧ (LLMResponse.usage r = ∅ ∨ dom (LLMResponse.usage r) = usage_keys).

(** The argument strings of the tool calls of a message that the decoder
    gets to see. *)
Definition string_arguments (tcs : list ToolCall.t) : list string :=
  omap (λ tc, match Function.arguments (ToolCall.function tc) with
              | ArgStr a => Some a
              | ArgValue _ => None
              end) tcs.

(** ** A provider to run

    A completion source that answers every request with the sample traffic:
    the tool-call turn when a stream is asked for, the sample completion
    otherwise. *)
Module Fixtures.
Definition fake_openai (api_key base_url : string) (kwargs : gmap string kwarg)
  : outcome api_response :=
  match kwargs !! "stream" with
  | Some (KBool true) => Ret (AsyncStream Samples.tool_stream)
  | _ => Ret (ChatCompletion Samples.completion)
  end.

(** A sanitizer that finds nothing to change, and one that fails. *)
Definition keep_messages (messages : list json) : outcome (list json) := Ret messages.

Definition ValueError : exn := {| is_Exception := true; str := "bad message" |}.

Definition reject_messages (messages : list json) : outcome (list json) :=
  Raise ValueError.

Definition streaming : CustomProvider.t :=
  CustomProvider.__init__ fake_openai None None (Some "qwen") (Some true).

Definition plain : CustomProvider.t :=
  CustomProvider.__init__ fake_openai None None None None.

Definition hello : list json :=
  [JDict [("role", JStr "user"); ("content", JStr "hello")]].

Definition weather_tool : json := JDict [("type", JStr "function")].

(** A decoder that names, in its failure, the text it could not read. *)
Definition complaining (a : string) : outcome json :=
  match Reference.json_loads a with
  | Some v => Ret v
  | None => Raise {| is_Exception := true; str := "cannot decode " +:+ a |}
  end.

(** Three tool calls: the one of index 3 arrives first and is unreadable,
    the one of index 1 arrives next and is unreadable too, the one of
    index 0 arrives last and is an empty object. *)
Definition two_unreadable : stream :=
  Stream
    [ Samples.tools_chunk [Samples.fragment 3 (Some "c3") (Some "h") (Some "!!!")];
      Samples.tools_chunk [Samples.fragment 1 (Some "c1") (Some "g") (Some "???")];
      Samples.tools_chunk [Samples.fragment 0 (Some "c0") (Some "f") (Some "{}")] ]
    None.

(** The tool-call turn of the samples with its fragments grouped
    otherwise: the three pieces of index 0 in one chunk, ahead of the
    fragments of the indices 4 and 1, which share the chunk that carries
    the finish reason. *)
Definition regrouped_tool_turn : list Chunk.t :=
  [ Samples.tools_chunk
      [Samples.fragment 0 (Some "call_1") (Some "get_weather") (Some Samples.piece1);
       Samples.fragment 0 None None (Some Samples.piece2);
       Samples.fragment 0 None (Some "") (Some Samples.piece3)];
    Samples.usage_chunk (Usage.Make 12 7 19);
    Samples.delta_chunk (Some "tool_calls")
      (Delta.Make None None
         (Some [ToolCallDelta.Make 4 None None;
                Samples.fragment 1 (Some "call_2") (Some "get_time") None])) ].

(** A completion source whose stream breaks after two chunks. *)
Definition broken_openai (api_key base_url : string) (kwargs : gmap string kwarg)
  : outcome api_response :=
  Ret (AsyncStream Samples.broken_stream).

Definition unlucky : CustomProvider.t :=
  CustomProvider.__init__ broken_openai None None None (Some true).

(** A completion object without choices, and one whose second tool call has
    arguments that are structured already. *)
Definition no_choices : Completion.t := Completion.Make [] None.

Definition two_calls : Completion.t :=
  Completion.Make
    [ Choice.Make
        (Message.Make (Some "")
           (Some [ToolCall.Make "c0" (Function.Make "f" (ArgStr "{}"));
                  ToolCall.Make "c1" (Function.Make "g" (ArgValue (JList [])))])
           (Some ""))
        (Some "tool_calls") ]
    (Some (Usage.Make 3 4 7)).

(** A completion source that cannot be reached, one that answers with a
    completion object without choices, and one whose stream carries the
    tool call with the unreadable arguments. *)
Definition unreachable_openai (api_key base_url : string)
    (kwargs : gmap string kwarg) : outcome api_response :=
  Raise Samples.ConnectionError.

Definition hollow_openai (api_key base_url : string) (kwargs : gmap string kwarg)
  : outcome api_response :=
  Ret (ChatCompletion no_choices).

Definition garbled_openai (api_key base_url : string) (kwargs : gmap string kwarg)
  : outcome api_response :=
  Ret (AsyncStream Samples.garbled_stream).

Definition unreachable : CustomProvider.t :=
  CustomProvider.__init__ unreachable_openai None None None None.

Definition hollow : CustomProvider.t :=
  CustomProvider.__init__ hollow_openai None None None None.

Definition garbling : CustomProvider.t :=
  CustomProvider.__init__ garbled_openai None None None (Some true).

(** The text turn, padded with chunks that carry nothing and with choices
    beyond the first. *)
Definition noisy_text_turn : list Chunk.t :=
  [ Chunk.Make [] None;
    Samples.reasoning_chunk "think";
    Chunk.Make [StreamChoice.Make None (Some (Delta.Make (Some "Hel") None None));
                StreamChoice.Make (Some "length")
                                  (Some (Delta.Make (Some "ignored") None None))]
               (Some (Usage.Make 1 1 2));
    Samples.bare_chunk;
    Samples.delta_chunk None (Delta.Make (Some "") (Some "") (Some []));
    Samples.delta_chunk (Some "stop") (Delta.Make (Some "lo") None None) ].
End Fixtures.

(** * Properties *)

(** ** Strings and truthiness *)

Lemma app_empty_r (s : string) : s +:+ "" = s.
Proof.
  induction s as [|a s IH]; [reflexivity|].
  change (String a (s +:+ "") = String a s). by rewrite IH.
Qed.

Lemma app_string_assoc (s1 s2 s3 : string) : (s1 +:+ s2) +:+ s3 = s1 +:+ (s2 +:+ s3).
Proof.
  induction s1 as [|a s1 IH]; [reflexivity|].
  change (String a ((s1 +:+ s2) +:+ s3) = String a (s1 +:+ (s2 +:+ s3))).
  by rewrite IH.
Qed.

Lemma truthy_false (s : string) : truthy s = false ↔ s = "".
Proof. by destruct s. Qed.

Lemma truthy_true (s : string) : truthy s = true ↔ s ≠ "".
Proof. by destruct s. Qed.

Lemma or_None_nonempty (s : string) : s ≠ "" → or_None s = Some s.
Proof. intros Hs. unfold or_None. by apply truthy_true in Hs as ->. Qed.

Lemma join_cons (x : string) (l : list string) : join "" (x :: l) = x +:+ join "" l.
Proof.
  destruct l as [|y l]; [|reflexivity].
  symmetry. apply app_empty_r.
Qed.

Lemma join_app (l1 l2 : list string) : join "" (l1 ++ l2) = join "" l1 +:+ join "" l2.
Proof.
  induction l1 as [|x l1 IH]; [reflexivity|].
  rewrite <- app_comm_cons, !join_cons, IH. by rewrite app_string_assoc.
Qed.

Lemma join_snoc (l : list string) (x : string) : join "" (l ++ [x]) = join "" l +:+ x.
Proof. by rewrite join_app. Qed.

(** An optional substring adds its text to the joined buffer; an absent or
    empty one adds nothing. *)
Lemma join_option_list (l : list string) (o : option string) :
  join "" (l ++ option_list o) = join "" l +:+ default "" o.
Proof.
  destruct o as [x|]; simpl.
  - apply join_snoc.
  - by rewrite app_nil_r, app_empty_r.
Qed.

Lemma join_truthy_str (l : list string) (o : option string) :
  join "" (l ++ option_list (truthy_str o)) = join "" (l ++ option_list o).
Proof.
  rewrite !join_option_list. f_equal.
  destruct o as [[|a x]|]; reflexivity.
Qed.

Lemma omap_snoc {A B} (f : A → option B) (l : list A) (x : A) :
  omap f (l ++ [x]) = omap f l ++ option_list (f x).
Proof. rewrite omap_app. simpl. by destruct (f x). Qed.

Lemma last_option_list {A} (l : list A) (o : option A) (d : A) :
  default d (last (l ++ option_list o)) = default (default d (last l)) o.
Proof.
  destruct o as [x|]; simpl.
  - by rewrite last_snoc.
  - by rewrite app_nil_r.
Qed.

(** ** The error monad *)

Lemma mapM_Ret {A B} (f : A → outcome B) (l : list A) (k : list B) :
  mapM f l = Ret k ↔ Forall2 (λ x y, f x = Ret y) l k.
Proof.
  split.
  - revert k. induction l as [|x l IH]; intros k; simpl.
    + intros [= <-]. constructor.
    + destruct (f x) as [y|] eqn:Hx; [|done]. simpl.
      destruct (mapM f l) as [k'|]; [|done]. simpl.
      intros [= <-]. constructor; auto.
  - induction 1 as [|x y l k Hx _ IH]; [done|].
    simpl. rewrite Hx. simpl. by rewrite IH.
Qed.

Lemma mapM_returns {A B} (f : A → outcome B) (l : list A) :
  Forall (λ x, ∃ y, f x = Ret y) l → ∃ k, mapM f l = Ret k.
Proof.
  induction 1 as [|x l [y Hx] _ [k IH]]; [by eexists|].
  exists (y :: k). simpl. rewrite Hx. simpl. by rewrite IH.
Qed.

Lemma mapM_raises {A B} (f : A → outcome B) (l : list A) :
  Exists (λ x, ∃ e, f x = Raise e) l → ∃ e, mapM f l = Raise e.
Proof.
  induction 1 as [x l [e Hx]|x l _ [e IH]]; simpl.
  - exists e. by rewrite Hx.
  - destruct (f x) as [y|e']; [|by eexists].
    simpl. exists e. by rewrite IH.
Qed.

(** ** The loop, chunk by chunk *)

Lemma aggregate_snoc (chunks : list Chunk.t) (chunk : Chunk.t) :
  aggregate (chunks ++ [chunk]) = step (aggregate chunks) chunk.
Proof. unfold aggregate. by rewrite fold_left_app. Qed.

(** Induction along the arrival order of the chunks. *)
Lemma aggregate_ind (P : list Chunk.t → Agg.t → Prop) :
  P [] Agg.init →
  (∀ chunks chunk, P chunks (aggregate chunks) →
                   P (chunks ++ [chunk]) (step (aggregate chunks) chunk)) →
  ∀ chunks, P chunks (aggregate chunks).
Proof.
  intros Hinit Hstep chunks.
  induction chunks as [|chunk chunks IH] using rev_ind; [done|].
  rewrite aggregate_snoc. by apply Hstep.
Qed.

Ltac step_cases st chunk :=
  unfold step, content_substrings, reasoning_substrings, finish_reasons,
    usage_signals, chunk_finish_reason, usage_signal, chunk_fragments,
    chunk_delta, first_choice;
  destruct chunk as [[|[fr [[c rc tcs]|]] rest] [u|]]; simpl.

Lemma step_content (st : Agg.t) (chunk : Chunk.t) :
  join "" (Agg.content_parts (step st chunk))
  = join "" (Agg.content_parts st
             ++ option_list (chunk_delta chunk ≫= Delta.content)).
Proof.
  step_cases st chunk; rewrite ?app_nil_r; try done.
  all: rewrite <- join_truthy_str; destruct (truthy_str c); simpl;
    by rewrite ?app_nil_r.
Qed.

Lemma step_reasoning (st : Agg.t) (chunk : Chunk.t) :
  join "" (Agg.reasoning_parts (step st chunk))
  = join "" (Agg.reasoning_parts st
             ++ option_list (chunk_delta chunk ≫= Delta.reasoning_content)).
Proof.
  step_cases st chunk; rewrite ?app_nil_r; try done.
  all: rewrite <- join_truthy_str; destruct (truthy_str rc); simpl;
    by rewrite ?app_nil_r.
Qed.

Lemma step_finish_reason (st : Agg.t) (chunk : Chunk.t) :
  Agg.finish_reason (step st chunk)
  = default (Agg.finish_reason st) (chunk_finish_reason chunk).
Proof. step_cases st chunk; try done; by destruct (truthy_str fr). Qed.

Lemma step_usage (st : Agg.t) (chunk : Chunk.t) :
  Agg.usage (step st chunk)
  = default (Agg.usage st) (usage_dict <$> usage_signal chunk).
Proof. by step_cases st chunk. Qed.

Lemma aggregate_content (chunks : list Chunk.t) :
  join "" (Agg.content_parts (aggregate chunks)) = join "" (content_substrings chunks).
Proof.
  revert chunks. apply (aggregate_ind (λ chunks st,
    join "" (Agg.content_parts st) = join "" (content_substrings chunks))); [done|].
  intros chunks chunk IH.
  rewrite step_content. unfold content_substrings. rewrite omap_snoc.
  rewrite !join_app. by rewrite IH.
Qed.

Lemma aggregate_reasoning (chunks : list Chunk.t) :
  join "" (Agg.reasoning_parts (aggregate chunks))
  = join "" (reasoning_substrings chunks).
Proof.
  revert chunks. apply (aggregate_ind (λ chunks st,
    join "" (Agg.reasoning_parts st) = join "" (reasoning_substrings chunks))); [done|].
  intros chunks chunk IH.
  rewrite step_reasoning. unfold reasoning_substrings. rewrite omap_snoc.
  rewrite !join_app. by rewrite IH.
Qed.

Lemma aggregate_finish_reason (chunks : list Chunk.t) :
  Agg.finish_reason (aggregate chunks) = default "stop" (last (finish_reasons chunks)).
Proof.
  revert chunks. apply (aggregate_ind (λ chunks st,
    Agg.finish_reason st = default "stop" (last (finish_reasons chunks)))); [done|].
  intros chunks chunk IH.
  rewrite step_finish_reason. unfold finish_reasons. rewrite omap_snoc.
  rewrite last_option_list. by rewrite IH.
Qed.

Lemma aggregate_usage (chunks : list Chunk.t) :
  Agg.usage (aggregate chunks)
  = default ∅ (usage_dict <$> last (usage_signals chunks)).
Proof.
  revert chunks. apply (aggregate_ind (λ chunks st,
    Agg.usage st = default ∅ (usage_dict <$> last (usage_signals chunks)))); [done|].
  intros chunks chunk IH.
  rewrite step_usage. unfold usage_signals. rewrite omap_snoc. rewrite IH.
  destruct (usage_signal chunk) as [u|]; simpl.
  - by rewrite last_snoc.
  - by rewrite app_nil_r.
Qed.

(** ** The fragment map *)

Lemma entry_of_nil : entry_of [] = Entry.fresh.
Proof. reflexivity. Qed.

Lemma entry_of_snoc (fs : list ToolCallDelta.t) (tc_delta : ToolCallDelta.t) :
  entry_of (fs ++ [tc_delta]) = extend (entry_of fs) tc_delta.
Proof.
  unfold entry_of, extend, accumulated_arguments, supplied_ids, supplied_names,
    argument_substrings.
  rewrite !omap_snoc, !last_option_list, join_option_list. done.
Qed.

Lemma entry_view_default (fs : list ToolCallDelta.t) :
  default Entry.fresh (entry_view fs) = entry_of fs.
Proof. by destruct fs. Qed.

Lemma entry_view_snoc (fs : list ToolCallDelta.t) (tc_delta : ToolCallDelta.t) :
  entry_view (fs ++ [tc_delta]) = Some (extend (entry_of fs) tc_delta).
Proof. rewrite <- entry_of_snoc. by destruct fs. Qed.

(** The loop body as a function of the entry it finds. *)
Lemma merge_tool_call_lookup (by_index : gmap Z Entry.t) (tc_delta : ToolCallDelta.t) (i : Z) :
  merge_tool_call by_index tc_delta !! i
  = if decide (ToolCallDelta.index tc_delta = i)
    then Some (extend (default Entry.fresh (by_index !! i)) tc_delta)
    else by_index !! i.
Proof.
  unfold merge_tool_call. case_decide as Hi.
  - subst i. rewrite lookup_insert_eq. f_equal.
    assert (default Entry.fresh
              (match by_index !! ToolCallDelta.index tc_delta with
               | Some _ => by_index
               | None => <[ToolCallDelta.index tc_delta := Entry.fresh]> by_index
               end !! ToolCallDelta.index tc_delta)
            = default Entry.fresh (by_index !! ToolCallDelta.index tc_delta)) as ->.
    { destruct (by_index !! ToolCallDelta.index tc_delta) as [e|] eqn:He.
      - by rewrite He.
      - by rewrite lookup_insert_eq. }
    unfold extend.
    destruct tc_delta as [idx tid [[fname fargs]|]]; simpl.
    all: destruct (default Entry.fresh (by_index !! idx)) as [eid ename eargs]; simpl.
    + destruct (truthy_str tid), (truthy_str fname), fargs as [[|a fargs]|];
        simpl; by rewrite ?app_empty_r.
    + destruct (truthy_str tid); simpl; by rewrite ?app_empty_r.
  - rewrite lookup_insert_ne by done.
    destruct (by_index !! ToolCallDelta.index tc_delta); [done|].
    by rewrite lookup_insert_ne.
Qed.

Lemma tracks_merge_tool_call by_index fs tc_delta :
  tracks by_index fs → tracks (merge_tool_call by_index tc_delta) (fs ++ [tc_delta]).
Proof.
  intros Hm i. rewrite merge_tool_call_lookup. unfold at_index.
  rewrite filter_app. case_decide as Hi.
  - rewrite filter_cons_True, filter_nil by done.
    rewrite entry_view_snoc. by rewrite Hm, entry_view_default.
  - rewrite filter_cons_False, filter_nil, app_nil_r by done. apply Hm.
Qed.

Lemma tracks_fold by_index fs l :
  tracks by_index fs → tracks (fold_left merge_tool_call l by_index) (fs ++ l).
Proof.
  revert by_index fs. induction l as [|tc_delta l IH]; intros by_index fs Hm; simpl.
  - by rewrite app_nil_r.
  - rewrite cons_middle, app_assoc. by apply IH, tracks_merge_tool_call.
Qed.

Lemma tracks_step st fs chunk :
  tracks (Agg.tool_calls_by_index st) fs →
  tracks (Agg.tool_calls_by_index (step st chunk)) (fs ++ chunk_fragments chunk).
Proof.
  intros Hm. step_cases st chunk; rewrite ?app_nil_r; try done.
  all: destruct tcs as [l|]; simpl; rewrite ?app_nil_r; try done.
  all: by apply tracks_fold.
Qed.

Lemma fragments_snoc chunks chunk :
  fragments (chunks ++ [chunk]) = fragments chunks ++ chunk_fragments chunk.
Proof. unfold fragments. rewrite bind_app. simpl. by rewrite app_nil_r. Qed.

(** After the loop, the map holds at every index the entry its fragments
    add up to, and nothing at an index no fragment carries. *)
Lemma aggregate_entries (chunks : list Chunk.t) (i : Z) :
  Agg.tool_calls_by_index (aggregate chunks) !! i = entry_view (fragments_at i chunks).
Proof.
  revert i. change (tracks (Agg.tool_calls_by_index (aggregate chunks)) (fragments chunks)).
  revert chunks. apply (aggregate_ind (λ chunks st,
    tracks (Agg.tool_calls_by_index st) (fragments chunks))).
  - intros i. apply lookup_empty.
  - intros chunks chunk IH. rewrite fragments_snoc. by apply tracks_step.
Qed.

Lemma entry_view_Some (fs : list ToolCallDelta.t) (e : Entry.t) :
  entry_view fs = Some e ↔ fs ≠ [] ∧ e = entry_of fs.
Proof.
  destruct fs as [|tc_delta fs]; simpl.
  - split; [done|]. by intros [? _].
  - split; [by intros [= <-]|]. by intros [_ ->].
Qed.

(** ** [sorted(tool_calls_by_index.items())] *)

#[local] Instance key_le_trans : Transitive key_le.
Proof. intros a b c. unfold key_le. lia. Qed.

#[local] Instance key_le_total : Total key_le.
Proof. intros a b. unfold key_le. lia. Qed.

Lemma sorted_nodup_strict (l : list Z) :
  StronglySorted Z.le l → NoDup l → StronglySorted Z.lt l.
Proof.
  induction 1 as [|x l _ IH Hx]; intros Hnd; [constructor|].
  apply NoDup_cons in Hnd as [Hnotin Hnd].
  constructor; [by apply IH|].
  rewrite Forall_forall in Hx |- *. intros y Hy.
  specialize (Hx y Hy). assert (x ≠ y) by (by intros ->). lia.
Qed.

Lemma sorted_items_elem_of (by_index : gmap Z Entry.t) (i : Z) (e : Entry.t) :
  (i, e) ∈ sorted_items by_index ↔ by_index !! i = Some e.
Proof.
  unfold sorted_items. rewrite merge_sort_Permutation.
  apply elem_of_map_to_list.
Qed.

Lemma sorted_items_ascending (by_index : gmap Z Entry.t) :
  StronglySorted Z.lt (sorted_items by_index).*1.
Proof.
  apply sorted_nodup_strict.
  - apply (StronglySorted_fmap fst key_le); [done|].
    apply StronglySorted_merge_sort; apply _.
  - unfold sorted_items. rewrite merge_sort_Permutation.
    apply NoDup_fst_map_to_list.
Qed.

Lemma sorted_items_keys (by_index : gmap Z Entry.t) (i : Z) :
  i ∈ (sorted_items by_index).*1 ↔ is_Some (by_index !! i).
Proof.
  rewrite list_elem_of_fmap. split.
  - intros [[j e] [-> He]]. apply sorted_items_elem_of in He. by eexists.
  - intros [e He]. exists (i, e). split; [done|]. by apply sorted_items_elem_of.
Qed.

Lemma ascending_NoDup (l : list Z) : StronglySorted Z.lt l → NoDup l.
Proof.
  induction 1 as [|x l _ IH Hx]; constructor; [|done].
  intros Hin. rewrite Forall_forall in Hx. specialize (Hx x Hin). lia.
Qed.

(** A strictly ascending list is determined by its elements. *)
Lemma ascending_unique (l1 l2 : list Z) :
  StronglySorted Z.lt l1 → StronglySorted Z.lt l2 →
  (∀ i, i ∈ l1 ↔ i ∈ l2) → l1 = l2.
Proof.
  intros H1 H2 Hmem.
  assert (AntiSymm (=) Z.lt) by (intros x y ??; lia).
  apply (StronglySorted_unique Z.lt); [done..|].
  apply NoDup_Permutation; auto using ascending_NoDup.
Qed.

(** ** The response of the stream aggregator *)

Section engine.
Variable json_repair_loads : string → outcome json.

Lemma stream_arguments_empty : stream_arguments json_repair_loads "" = Ret empty_dict.
Proof. reflexivity. Qed.

Lemma stream_arguments_nonempty (s : string) :
  s ≠ "" → stream_arguments json_repair_loads s = json_repair_loads s.
Proof. intros Hs. unfold stream_arguments. by apply truthy_true in Hs as ->. Qed.

Lemma assemble_Ret (e : Entry.t) (tc : ToolCallRequest.t) :
  assemble json_repair_loads e = Ret tc
  ↔ ToolCallRequest.id tc = Entry.id e
    ∧ ToolCallRequest.name tc = Entry.name e
    ∧ stream_arguments json_repair_loads (Entry.arguments e)
      = Ret (ToolCallRequest.arguments tc).
Proof.
  unfold assemble.
  destruct (stream_arguments json_repair_loads (Entry.arguments e)) as [v|x]; simpl.
  - split.
    + by intros [= <-].
    + destruct tc as [i n a]; simpl. by intros (-> & -> & [= ->]).
  - split; [done|]. by intros (_ & _ & ?).
Qed.

Lemma consume_stream_Ret (s : stream) (r : LLMResponse.t) :
  _consume_stream json_repair_loads s = Ret r
  ↔ failure s = None
    ∧ ∃ tool_calls,
        mapM (λ item, assemble json_repair_loads item.2)
             (sorted_items (Agg.tool_calls_by_index (aggregate (delivered s))))
        = Ret tool_calls
        ∧ r = {| LLMResponse.content :=
                   or_None (join "" (Agg.content_parts (aggregate (delivered s))));
                 LLMResponse.tool_calls := tool_calls;
                 LLMResponse.finish_reason := Agg.finish_reason (aggregate (delivered s));
                 LLMResponse.usage := Agg.usage (aggregate (delivered s));
                 LLMResponse.reasoning_content :=
                   or_None (join "" (Agg.reasoning_parts (aggregate (delivered s)))) |}.
Proof.
  unfold _consume_stream. destruct (failure s) as [e|].
  - split; [done|]. by intros [? _].
  - destruct (mapM _ _) as [tcs|e]; simpl.
    + split.
      * intros [= <-]. split; [done|]. by exists tcs.
      * by intros (_ & tcs' & [= <-] & ->).
    + split; [done|]. by intros (_ & tcs' & ? & _).
Qed.

(** The tool calls of the response, index by index: one call for every
    index a fragment carries, in strictly ascending order of the indices,
    each assembled from the entry its fragments add up to. *)
Lemma consume_stream_tool_calls (s : stream) (r : LLMResponse.t) :
  _consume_stream json_repair_loads s = Ret r →
  ∃ indices : list Z,
    StronglySorted Z.lt indices
    ∧ (∀ i, i ∈ indices ↔ fragments_at i (delivered s) ≠ [])
    ∧ Forall2 (λ i tc,
                 assemble json_repair_loads (entry_of (fragments_at i (delivered s)))
                 = Ret tc)
              indices (LLMResponse.tool_calls r).
Proof.
  intros (_ & tcs & Hm & ->)%consume_stream_Ret. simpl.
  set (m := Agg.tool_calls_by_index (aggregate (delivered s))) in *.
  exists (sorted_items m).*1. split; [apply sorted_items_ascending|]. split.
  - intros i. rewrite sorted_items_keys. unfold m. rewrite aggregate_entries.
    destruct (fragments_at i (delivered s)); simpl.
    + split; [by intros [? ?]|done].
    + split; [done|]. by eexists.
  - apply mapM_Ret in Hm. apply Forall2_fmap_l.
    assert (Forall (λ item, item.2 = entry_of (fragments_at item.1 (delivered s)))
                   (sorted_items m)) as Hitems.
    { apply Forall_forall. intros [i e] Hin. simpl.
      apply sorted_items_elem_of in Hin. unfold m in Hin.
      rewrite aggregate_entries in Hin. by apply entry_view_Some in Hin as [_ ->]. }
    induction Hm as [|item tc items tcs' Hitem _ IH]; [constructor|].
    apply Forall_cons in Hitems as [Heq Hitems].
    constructor; [|by apply IH]. simpl. by rewrite <- Heq.
Qed.

(** The stream aggregator returns a response whenever the stream ends by
    exhaustion and the decoder returns on every accumulated argument
    string. *)
Lemma consume_stream_returns (s : stream) :
  failure s = None →
  (∀ i, fragments_at i (delivered s) ≠ [] →
        ∃ v, stream_arguments json_repair_loads
               (accumulated_arguments (fragments_at i (delivered s))) = Ret v) →
  ∃ r, _consume_stream json_repair_loads s = Ret r.
Proof.
  intros Hf Hdec.
  destruct (mapM_returns (λ item : Z * Entry.t, assemble json_repair_loads item.2)
              (sorted_items (Agg.tool_calls_by_index (aggregate (delivered s)))))
    as [tcs Htcs].
  { apply Forall_forall. intros [i e] Hin. simpl.
    apply sorted_items_elem_of in Hin. rewrite aggregate_entries in Hin.
    apply entry_view_Some in Hin as [Hne ->].
    destruct (Hdec i Hne) as [v Hv].
    exists (ToolCallRequest.Make (Entry.id (entry_of (fragments_at i (delivered s))))
              (Entry.name (entry_of (fragments_at i (delivered s)))) v).
    by apply assemble_Ret. }
  eexists. apply consume_stream_Ret. split; [done|]. by exists tcs.
Qed.
End engine.

Example tool_turn_runs :
  _consume_stream Reference.repair_nothing Samples.tool_stream
  = Ret Samples.tool_turn_response.
Proof. vm_compute. reflexivity. Qed.

Example text_turn_runs :
  _consume_stream Reference.repair_nothing Samples.text_stream
  = Ret Samples.text_turn_response.
Proof. vm_compute. reflexivity. Qed.

Example completion_runs :
  _parse Reference.repair_nothing Samples.completion = Ret Samples.completion_response.
Proof. vm_compute. reflexivity. Qed.

(** ** The non-stream parser *)

Section parser.
Variable json_repair_loads : string → outcome json.

Lemma convert_Ret (tc : ToolCall.t) (req : ToolCallRequest.t) :
  convert json_repair_loads tc = Ret req
  ↔ ToolCallRequest.id req = ToolCall.id tc
    ∧ ToolCallRequest.name req = Function.name (ToolCall.function tc)
    ∧ parse_arguments json_repair_loads (Function.arguments (ToolCall.function tc))
      = Ret (ToolCallRequest.arguments req).
Proof.
  unfold convert.
  destruct (parse_arguments _ _) as [v|x]; simpl.
  - split.
    + by intros [= <-].
    + destruct req as [i n a]; simpl. by intros (-> & -> & [= ->]).
  - split; [done|]. by intros (_ & _ & ?).
Qed.

Lemma parse_Ret (response : Completion.t) (r : LLMResponse.t) :
  _parse json_repair_loads response = Ret r
  ↔ ∃ choice tool_calls,
      head (Completion.choices response) = Some choice
      ∧ mapM (convert json_repair_loads)
             (default [] (Message.tool_calls (Choice.message choice)))
        = Ret tool_calls
      ∧ r = {| LLMResponse.content := Message.content (Choice.message choice);
               LLMResponse.tool_calls := tool_calls;
               LLMResponse.finish_reason :=
                 default "stop" (truthy_str (Choice.finish_reason choice));
               LLMResponse.usage :=
                 match Completion.usage response with
                 | Some u => usage_dict u
                 | None => ∅
                 end;
               LLMResponse.reasoning_content :=
                 truthy_str (Message.reasoning_content (Choice.message choice)) |}.
Proof.
  unfold _parse. destruct (Completion.choices response) as [|choice rest]; simpl.
  - split; [done|]. by intros (? & ? & ? & _).
  - destruct (mapM _ _) as [tcs|e] eqn:Htcs; simpl.
    + split.
      * intros [= <-]. by exists choice, tcs.
      * intros (c & t & [= <-] & Hm & ->). rewrite Htcs in Hm.
        by injection Hm as <-.
    + split; [done|]. intros (c & t & [= <-] & Hm & _). by rewrite Htcs in Hm.
Qed.

(** The tool calls of the parsed response, one for each tool call of the
    message, in the order of the message. *)
Lemma parse_tool_calls (response : Completion.t) (choice : Choice.t) (r : LLMResponse.t) :
  _parse json_repair_loads response = Ret r →
  head (Completion.choices response) = Some choice →
  Forall2 (λ tc req, convert json_repair_loads tc = Ret req)
          (default [] (Message.tool_calls (Choice.message choice)))
          (LLMResponse.tool_calls r).
Proof.
  intros (choice' & tcs & Hhead & Hm & ->)%parse_Ret Hchoice. simpl.
  rewrite Hhead in Hchoice. injection Hchoice as ->. by apply mapM_Ret.
Qed.
End parser.

(** * The claims *)

Section claims.
Variable json_repair_loads : string → outcome json.

(** C5.  The content of the aggregated response is the concatenation, in
    arrival order, of the content substrings of the deltas, and it is
    absent, not the empty string, when that concatenation is empty (so
    also when no chunk supplied content); the reasoning content follows
    the same rule over the reasoning substrings. *)
Theorem consume_stream_content (s : stream) (r : LLMResponse.t) :
  _consume_stream json_repair_loads s = Ret r →
  let text := join "" (content_substrings (delivered s)) in
  let reasoning := join "" (reasoning_substrings (delivered s)) in
  (text = "" → LLMResponse.content r = None)
  ∧ (text ≠ "" → LLMResponse.content r = Some text)
  ∧ (reasoning = "" → LLMResponse.reasoning_content r = None)
  ∧ (reasoning ≠ "" → LLMResponse.reasoning_content r = Some reasoning).
Proof.
  intros (_ & tcs & _ & ->)%consume_stream_Ret. simpl.
  rewrite aggregate_content, aggregate_reasoning.
  repeat split.
  - by intros ->.
  - apply or_None_nonempty.
  - by intros ->.
  - apply or_None_nonempty.
Qed.

(** C6.  The finish reason of the aggregated response is the last
    non-empty finish reason carried by the first choice of a chunk, and
    "stop" when there is none; a chunk whose finish reason is empty or
    absent leaves the running finish reason as it is; the non-stream
    parser gives "stop" when the choice has no finish reason. *)
Theorem finish_reason_last_wins :
  (∀ s r, _consume_stream json_repair_loads s = Ret r →
          LLMResponse.finish_reason r
          = default "stop" (last (finish_reasons (delivered s))))
  ∧ (∀ st chunk, chunk_finish_reason chunk = None →
                 Agg.finish_reason (step st chunk) = Agg.finish_reason st)
  ∧ (∀ response choice r,
       _parse json_repair_loads response = Ret r →
       head (Completion.choices response) = Some choice →
       LLMResponse.finish_reason r
       = match Choice.finish_reason choice with
         | Some fr => if decide (fr = "") then "stop" else fr
         | None => "stop"
         end).
Proof.
  split; [|split].
  - intros s r (_ & tcs & _ & ->)%consume_stream_Ret. simpl.
    apply aggregate_finish_reason.
  - intros st chunk Hnone. by rewrite step_finish_reason, Hnone.
  - intros response choice r (choice' & tcs & Hhead & _ & ->)%parse_Ret Hchoice.
    simpl. rewrite Hhead in Hchoice. injection Hchoice as ->.
    by destruct (Choice.finish_reason choice) as [[|a fr]|].
Qed.

(** C7.  A chunk without choices that carries a usage object sets the
    usage to the three token counts of that object, whatever the usage
    was before, and leaves the content buffer, the reasoning buffer and
    the fragment map as they are; the usage of the response is that of the
    last such chunk, never a sum. *)
Theorem usage_only_chunk :
  (∀ st chunk u,
     Chunk.choices chunk = [] → Chunk.usage chunk = Some u →
     Agg.usage (step st chunk) = usage_dict u
     ∧ Agg.usage (step st chunk) !! "prompt_tokens" = Some (Usage.prompt_tokens u)
     ∧ Agg.usage (step st chunk) !! "completion_tokens"
       = Some (Usage.completion_tokens u)
     ∧ Agg.usage (step st chunk) !! "total_tokens" = Some (Usage.total_tokens u)
     ∧ Agg.content_parts (step st chunk) = Agg.content_parts st
     ∧ Agg.reasoning_parts (step st chunk) = Agg.reasoning_parts st
     ∧ Agg.tool_calls_by_index (step st chunk) = Agg.tool_calls_by_index st)
  ∧ (∀ s r, _consume_stream json_repair_loads s = Ret r →
            LLMResponse.usage r
            = default ∅ (usage_dict <$> last (usage_signals (delivered s)))).
Proof.
  split.
  - intros st chunk u Hchoices Husage. unfold step. rewrite Hchoices, Husage.
    simpl. unfold usage_dict. by simplify_map_eq.
  - intros s r (_ & tcs & _ & ->)%consume_stream_Ret. simpl.
    apply aggregate_usage.
Qed.

(** C8.  A chunk that carries choices leaves the running usage as it is,
    also when the chunk carries a usage object. *)
Theorem choices_chunk_keeps_usage (st : Agg.t) (chunk : Chunk.t) :
  Chunk.choices chunk ≠ [] → Agg.usage (step st chunk) = Agg.usage st.
Proof.
  intros Hchoices. rewrite step_usage. unfold usage_signal.
  by destruct (Chunk.choices chunk).
Qed.

(** C9.  A completion object without usage object gives a response whose
    usage is the empty mapping; a stream in which no chunk without choices
    carries usage does so too; and the empty mapping is not a mapping of
    counters, zeros or others. *)
Theorem usage_absent :
  (∀ response r,
     Completion.usage response = None →
     _parse json_repair_loads response = Ret r →
     LLMResponse.usage r = ∅)
  ∧ (∀ s r,
       (∀ chunk, chunk ∈ delivered s → Chunk.choices chunk = [] →
                 Chunk.usage chunk = None) →
       _consume_stream json_repair_loads s = Ret r →
       LLMResponse.usage r = ∅)
  ∧ (∀ u, usage_dict u ≠ ∅).
Proof.
  split; [|split].
  - intros response r Hu (choice & tcs & _ & _ & ->)%parse_Ret. simpl.
    by rewrite Hu.
  - intros s r Hnone (_ & tcs & _ & ->)%consume_stream_Ret. simpl.
    rewrite aggregate_usage.
    assert (usage_signals (delivered s) = []) as ->; [|done].
    unfold usage_signals. induction (delivered s) as [|chunk chunks IH]; [done|].
    simpl. assert (usage_signal chunk = None) as ->.
    { unfold usage_signal.
      destruct (Chunk.choices chunk) eqn:Hc; [|done].
      apply Hnone; [by left|done]. }
    apply IH. intros chunk' Hin. apply Hnone. by right.
  - intros u Hempty.
    assert (usage_dict u !! "prompt_tokens" = None) as Hl by (by rewrite Hempty).
    unfold usage_dict in Hl. by simplify_map_eq.
Qed.
(** Reads the tool calls of a returned response index by index: leaves
    one goal, about the call [tc] assembled for the index [i]. *)
Ltac index_by_index H :=
  let indices := fresh "indices" in
  apply consume_stream_tool_calls in H as (indices & ? & ? & H);
  exists indices; split; [done|]; split; [done|];
  eapply Forall2_impl; [exact H|]; simpl;
  let i := fresh "i" in let tc := fresh "tc" in
  let Hid := fresh "Hid" in let Hname := fresh "Hname" in
  let Hargs := fresh "Hargs" in
  intros i tc (Hid & Hname & Hargs)%assemble_Ret; simpl in Hid, Hname, Hargs.

(** C3.  The tool calls of the aggregated response come in strictly
    ascending order of the fragment indices: there is one call for each
    index that a fragment of the sequence carries, assembled from the
    fragments of that index, and the indices of consecutive calls increase.
    The arrival order has no part in it: a second sequence that carries the
    same indices, in whatever order, has its calls at the same positions. *)
Theorem tool_calls_ascending (s : stream) (r : LLMResponse.t) :
  _consume_stream json_repair_loads s = Ret r →
  ∃ indices : list Z,
    StronglySorted Z.lt indices
    ∧ (∀ i, i ∈ indices ↔ fragments_at i (delivered s) ≠ [])
    ∧ Forall2 (λ i tc,
                 assemble json_repair_loads (entry_of (fragments_at i (delivered s)))
                 = Ret tc)
              indices (LLMResponse.tool_calls r)
    ∧ ∀ s' r',
        _consume_stream json_repair_loads s' = Ret r' →
        (∀ i, fragments_at i (delivered s') ≠ [] ↔ fragments_at i (delivered s) ≠ []) →
        Forall2 (λ i tc,
                   assemble json_repair_loads (entry_of (fragments_at i (delivered s')))
                   = Ret tc)
                indices (LLMResponse.tool_calls r').
Proof.
  intros (indices & Hsorted & Hmem & Hcalls)%consume_stream_tool_calls.
  exists indices. repeat split; try done; try by apply Hmem.
  intros s' r' (indices' & Hsorted' & Hmem' & Hcalls')%consume_stream_tool_calls Hsame.
  assert (indices' = indices) as <-; [|done].
  apply ascending_unique; [done..|].
  intros i. by rewrite Hmem, Hmem', Hsame.
Qed.

(** C10.  In the stream aggregator, the call of an index for which no
    fragment supplied an id has the empty string as id, and likewise for
    the name; an id or name that is not empty is one that a fragment of
    that index supplied; no index that a fragment carries goes without
    its call. *)
Theorem unsupplied_id_is_empty (s : stream) (r : LLMResponse.t) :
  _consume_stream json_repair_loads s = Ret r →
  ∃ indices : list Z,
    StronglySorted Z.lt indices
    ∧ (∀ i, i ∈ indices ↔ fragments_at i (delivered s) ≠ [])
    ∧ Forall2 (λ i tc,
                 let fs := fragments_at i (delivered s) in
                 (supplied_ids fs = [] → ToolCallRequest.id tc = "")
                 ∧ (supplied_names fs = [] → ToolCallRequest.name tc = "")
                 ∧ (ToolCallRequest.id tc = "" ∨ ToolCallRequest.id tc ∈ supplied_ids fs)
                 ∧ (ToolCallRequest.name tc = ""
                    ∨ ToolCallRequest.name tc ∈ supplied_names fs))
              indices (LLMResponse.tool_calls r).
Proof.
  intros Hr. index_by_index Hr. rewrite Hid, Hname. repeat split.
  - by intros ->.
  - by intros ->.
  - destruct (last (supplied_ids _)) as [x|] eqn:Hlast; simpl; [right|by left].
    by apply last_Some_elem_of.
  - destruct (last (supplied_names _)) as [x|] eqn:Hlast; simpl; [right|by left].
    by apply last_Some_elem_of.
Qed.

(** C2, as the code has it.  In the stream aggregator every index that a
    fragment carries has its call in the response, with the id and name
    accumulated for it; the arguments are the empty mapping when the
    accumulated argument string is empty, and otherwise exactly what the
    lenient decoder returns for that string, mapping or not.  When the
    decoder raises on an accumulated string, the aggregator raises and
    returns no response.  The non-stream parser keeps every tool call of
    the message, with its id and name, in order, and takes as arguments
    what the decoder returns for a non-empty string and a structured
    value as it is. *)
Theorem arguments_are_the_decoders :
  (∀ s r,
     _consume_stream json_repair_loads s = Ret r →
     ∃ indices : list Z,
       StronglySorted Z.lt indices
       ∧ (∀ i, i ∈ indices ↔ fragments_at i (delivered s) ≠ [])
       ∧ Forall2 (λ i tc,
                    let fs := fragments_at i (delivered s) in
                    ToolCallRequest.id tc = default "" (last (supplied_ids fs))
                    ∧ ToolCallRequest.name tc = default "" (last (supplied_names fs))
                    ∧ (accumulated_arguments fs = "" →
                       ToolCallRequest.arguments tc = empty_dict)
                    ∧ (accumulated_arguments fs ≠ "" →
                       json_repair_loads (accumulated_arguments fs)
                       = Ret (ToolCallRequest.arguments tc)))
                 indices (LLMResponse.tool_calls r))
  ∧ (∀ s i e,
       failure s = None →
       fragments_at i (delivered s) ≠ [] →
       accumulated_arguments (fragments_at i (delivered s)) ≠ "" →
       json_repair_loads (accumulated_arguments (fragments_at i (delivered s)))
       = Raise e →
       ∃ e', _consume_stream json_repair_loads s = Raise e')
  ∧ (∀ response choice r,
       _parse json_repair_loads response = Ret r →
       head (Completion.choices response) = Some choice →
       Forall2 (λ tc req,
                  ToolCallRequest.id req = ToolCall.id tc
                  ∧ ToolCallRequest.name req = Function.name (ToolCall.function tc)
                  ∧ match Function.arguments (ToolCall.function tc) with
                    | ArgStr a =>
                        a ≠ "" →
                        json_repair_loads a = Ret (ToolCallRequest.arguments req)
                    | ArgValue v => ToolCallRequest.arguments req = v
                    end)
               (default [] (Message.tool_calls (Choice.message choice)))
               (LLMResponse.tool_calls r)).
Proof.
  split; [|split].
  - intros s r Hr. index_by_index Hr. repeat split; try done.
    + intros Hempty. rewrite Hempty in Hargs. by injection Hargs as <-.
    + intros Hne. by rewrite stream_arguments_nonempty in Hargs.
  - intros s i e Hf Hfs Hne He. unfold _consume_stream. rewrite Hf.
    destruct (mapM_raises (λ item : Z * Entry.t, assemble json_repair_loads item.2)
                (sorted_items (Agg.tool_calls_by_index (aggregate (delivered s)))))
      as [e' He'].
    { apply Exists_exists.
      exists (i, entry_of (fragments_at i (delivered s))). split.
      - apply sorted_items_elem_of. rewrite aggregate_entries.
        by apply entry_view_Some.
      - exists e. unfold assemble. simpl.
        rewrite stream_arguments_nonempty by done. by rewrite He. }
    exists e'. by rewrite He'.
  - intros response choice r Hr Hchoice.
    eapply Forall2_impl; [by eapply parse_tool_calls|].
    intros tc req (Hid & Hname & Hargs)%convert_Ret. repeat split; try done.
    destruct (Function.arguments (ToolCall.function tc)); simpl in Hargs; [done|].
    by injection Hargs as <-.
Qed.

(** C4.  With a lenient decoder that gives, on every string the strict
    decoder accepts, the value the strict decoder gives (and a strict
    decoder that rejects the empty string), the arguments of a tool call
    whose argument string is well-formed are the strict decode of that
    string: of the string of the message in the non-stream parser, and of
    the argument substrings of the index, joined in arrival order, in the
    stream aggregator. *)
Theorem well_formed_arguments_decode_exactly
    (json_loads : string → option json)
    (strict_rejects_empty : json_loads "" = None)
    (repair_keeps_strict :
       ∀ a v, json_loads a = Some v → json_repair_loads a = Ret v) :
  (∀ response choice r,
     _parse json_repair_loads response = Ret r →
     head (Completion.choices response) = Some choice →
     Forall2 (λ tc req,
                ∀ a v, Function.arguments (ToolCall.function tc) = ArgStr a →
                       json_loads a = Some v →
                       ToolCallRequest.arguments req = v)
             (default [] (Message.tool_calls (Choice.message choice)))
             (LLMResponse.tool_calls r))
  ∧ (∀ s r,
       _consume_stream json_repair_loads s = Ret r →
       ∃ indices : list Z,
         StronglySorted Z.lt indices
         ∧ (∀ i, i ∈ indices ↔ fragments_at i (delivered s) ≠ [])
         ∧ Forall2 (λ i tc,
                      ∀ v, json_loads
                             (join "" (argument_substrings
                                         (fragments_at i (delivered s))))
                           = Some v →
                           ToolCallRequest.arguments tc = v)
                   indices (LLMResponse.tool_calls r)).
Proof.
  split.
  - intros response choice r Hr Hchoice.
    eapply Forall2_impl; [by eapply parse_tool_calls|].
    intros tc req (_ & _ & Hargs)%convert_Ret a v Ha Hv.
    rewrite Ha in Hargs. simpl in Hargs.
    rewrite (repair_keeps_strict _ _ Hv) in Hargs. by injection Hargs as <-.
  - intros s r Hr. index_by_index Hr. intros v Hv.
    fold (accumulated_arguments (fragments_at i (delivered s))) in Hv.
    destruct (decide (accumulated_arguments (fragments_at i (delivered s)) = ""))
      as [Hempty|Hne].
    + rewrite Hempty in Hv. by rewrite strict_rejects_empty in Hv.
    + rewrite stream_arguments_nonempty in Hargs by done.
      rewrite (repair_keeps_strict _ _ Hv) in Hargs. by injection Hargs as <-.
Qed.

(** C1.  Whenever the completion source, or the parsing path that [chat]
    takes for its mode (the stream aggregator or the non-stream parser),
    raises a failure, [chat] raises nothing: the caller receives a response
    whose finish reason is "error" and whose content is a diagnostic that
    is not empty, "Error: " followed by the text of the failure.  A failure
    is an exception that is an instance of [Exception], as the connection,
    authentication, protocol and timeout errors of the completion source
    and the errors of the parsing paths are. *)
Theorem chat_error_boundary
    (_sanitize_empty_content : list json → outcome (list json))
    (self : CustomProvider.t) (messages sanitized : list json)
    (tools : option (list json)) (model : option string) (max_tokens : option Z)
    (temperature : option float) (reasoning_effort : option string) (e : exn) :
  let kwargs :=
    CustomProvider.request_kwargs self sanitized tools model (default 4096 max_tokens)
                                  (default float_0_7 temperature) reasoning_effort in
  _sanitize_empty_content messages = Ret sanitized →
  (CustomProvider._client self kwargs = Raise e
   ∨ ∃ response,
       CustomProvider._client self kwargs = Ret response
       ∧ (if CustomProvider.stream self
          then CustomProvider.consume_response json_repair_loads response
          else CustomProvider.parse_response json_repair_loads response)
         = Raise e) →
  is_Exception e = true →
  ∃ r diagnostic,
    CustomProvider.chat _sanitize_empty_content json_repair_loads self messages tools
                        model max_tokens temperature reasoning_effort
    = Ret r
    ∧ LLMResponse.finish_reason r = "error"
    ∧ LLMResponse.content r = Some diagnostic
    ∧ diagnostic = "Error: " +:+ str e
    ∧ diagnostic ≠ "".
Proof.
  intros kwargs Hsanitized Hraise Hexc. subst kwargs.
  exists (error_response e), ("Error: " +:+ str e).
  unfold CustomProvider.chat. rewrite Hsanitized. simpl.
  destruct Hraise as [Hsource|(response & Hsource & Hpath)]; rewrite Hsource; simpl.
  - by rewrite Hexc.
  - rewrite Hpath. simpl. by rewrite Hexc.
Qed.
End claims.

(** * The claims on the sample traffic *)

Lemma repair_nothing_keeps_strict (a : string) (v : json) :
  Reference.json_loads a = Some v → Reference.repair_nothing a = Ret v.
Proof. intros Hv. unfold Reference.repair_nothing. by rewrite Hv. Qed.

(** Three failures and the error response of each: the completion source
    cannot be reached; the connection breaks in the middle of the stream;
    the completion object has no choice for the parser to read. *)
Lemma chat_error_boundary_witness :
  (∃ r diagnostic,
     CustomProvider.chat Fixtures.keep_messages Reference.repair_nothing
       Fixtures.unreachable Fixtures.hello None None None None None = Ret r
     ∧ LLMResponse.finish_reason r = "error"
     ∧ LLMResponse.content r = Some diagnostic
     ∧ diagnostic = "Error: " +:+ str Samples.ConnectionError
     ∧ diagnostic ≠ "")
  ∧ (∃ r diagnostic,
       CustomProvider.chat Fixtures.keep_messages Reference.repair_nothing
         Fixtures.unlucky Fixtures.hello None None None None None = Ret r
       ∧ LLMResponse.finish_reason r = "error"
       ∧ LLMResponse.content r = Some diagnostic
       ∧ diagnostic = "Error: " +:+ str Samples.ConnectionError
       ∧ diagnostic ≠ "")
  ∧ (∃ r diagnostic,
       CustomProvider.chat Fixtures.keep_messages Reference.repair_nothing
         Fixtures.hollow Fixtures.hello None None None None None = Ret r
       ∧ LLMResponse.finish_reason r = "error"
       ∧ LLMResponse.content r = Some diagnostic
       ∧ diagnostic = "Error: " +:+ str IndexError
       ∧ diagnostic ≠ "").
Proof.
  split; [|split].
  - apply (chat_error_boundary Reference.repair_nothing Fixtures.keep_messages
             Fixtures.unreachable Fixtures.hello Fixtures.hello None None None None
             None Samples.ConnectionError); [reflexivity| |reflexivity].
    left. reflexivity.
  - apply (chat_error_boundary Reference.repair_nothing Fixtures.keep_messages
             Fixtures.unlucky Fixtures.hello Fixtures.hello None None None None
             None Samples.ConnectionError); [reflexivity| |reflexivity].
    right. exists (AsyncStream Samples.broken_stream). split; reflexivity.
  - apply (chat_error_boundary Reference.repair_nothing Fixtures.keep_messages
             Fixtures.hollow Fixtures.hello Fixtures.hello None None None None
             None IndexError); [reflexivity| |reflexivity].
    right. exists (ChatCompletion Fixtures.no_choices). split; reflexivity.
Defined.

Lemma arguments_are_the_decoders_witness :
  _consume_stream Reference.repair_nothing Samples.tool_stream
  = Ret Samples.tool_turn_response
  ∧ ∃ indices : list Z,
      StronglySorted Z.lt indices
      ∧ (∀ i, i ∈ indices ↔ fragments_at i Samples.tool_turn ≠ [])
      ∧ Forall2 (λ i tc,
                   let fs := fragments_at i Samples.tool_turn in
                   ToolCallRequest.id tc = default "" (last (supplied_ids fs))
                   ∧ ToolCallRequest.name tc = default "" (last (supplied_names fs))
                   ∧ (accumulated_arguments fs = "" →
                      ToolCallRequest.arguments tc = empty_dict)
                   ∧ (accumulated_arguments fs ≠ "" →
                      Reference.repair_nothing (accumulated_arguments fs)
                      = Ret (ToolCallRequest.arguments tc)))
                indices (LLMResponse.tool_calls Samples.tool_turn_response).
Proof.
  assert (_consume_stream Reference.repair_nothing Samples.tool_stream
          = Ret Samples.tool_turn_response) as Hr by (vm_compute; reflexivity).
  split; [exact Hr|].
  exact (proj1 (arguments_are_the_decoders Reference.repair_nothing) _ _ Hr).
Defined.

(** The argument text of the one tool call is beyond repair: the decoder
    finds no structure in it and gives the empty string, and the string,
    not the empty mapping, is the arguments of the call.  With a decoder
    that raises on it, the aggregator raises and [chat] answers with an
    error response that has no tool call. *)
Lemma garbled_arguments_are_not_the_empty_mapping :
  Samples.garbled ≠ ""
  ∧ Reference.repair_nothing Samples.garbled = Ret (JStr "")
  ∧ is_dict (JStr "") = false
  ∧ _consume_stream Reference.repair_nothing Samples.garbled_stream
    = Ret Samples.garbled_response
  ∧ ToolCallRequest.arguments <$> LLMResponse.tool_calls Samples.garbled_response
    = [JStr ""]
  ∧ JStr "" ≠ empty_dict
  ∧ _consume_stream Reference.strict_or_raise Samples.garbled_stream
    = Raise Reference.JSONDecodeError
  ∧ LLMResponse.tool_calls
      <$> CustomProvider.chat Fixtures.keep_messages Reference.strict_or_raise
            Fixtures.garbling Fixtures.hello None None None None None
    = Ret [].
Proof.
  repeat split; try done; vm_compute; reflexivity.
Qed.

Lemma tool_calls_ascending_witness :
  _consume_stream Reference.repair_nothing Samples.tool_stream
  = Ret Samples.tool_turn_response
  ∧ ∃ indices : list Z,
      StronglySorted Z.lt indices
      ∧ (∀ i, i ∈ indices ↔ fragments_at i Samples.tool_turn ≠ [])
      ∧ Forall2 (λ i tc,
                   assemble Reference.repair_nothing
                            (entry_of (fragments_at i Samples.tool_turn))
                   = Ret tc)
                indices (LLMResponse.tool_calls Samples.tool_turn_response)
      ∧ ∀ s' r',
          _consume_stream Reference.repair_nothing s' = Ret r' →
          (∀ i, fragments_at i (delivered s') ≠ []
                ↔ fragments_at i Samples.tool_turn ≠ []) →
          Forall2 (λ i tc,
                     assemble Reference.repair_nothing
                              (entry_of (fragments_at i (delivered s')))
                     = Ret tc)
                  indices (LLMResponse.tool_calls r').
Proof.
  assert (_consume_stream Reference.repair_nothing Samples.tool_stream
          = Ret Samples.tool_turn_response) as Hr by (vm_compute; reflexivity).
  split; [exact Hr|].
  exact (tool_calls_ascending Reference.repair_nothing _ _ Hr).
Defined.

Lemma well_formed_arguments_decode_exactly_witness :
  Reference.json_loads "" = None
  ∧ (∀ a v, Reference.json_loads a = Some v → Reference.repair_nothing a = Ret v)
  ∧ _parse Reference.repair_nothing Samples.completion = Ret Samples.completion_response
  ∧ _consume_stream Reference.repair_nothing Samples.tool_stream
    = Ret Samples.tool_turn_response
  ∧ Forall2 (λ tc req,
               ∀ a v, Function.arguments (ToolCall.function tc) = ArgStr a →
                      Reference.json_loads a = Some v →
                      ToolCallRequest.arguments req = v)
            [ToolCall.Make "call_1"
               (Function.Make "get_weather"
                  (ArgStr (Samples.piece1 +:+ Samples.piece2 +:+ Samples.piece3)))]
            (LLMResponse.tool_calls Samples.completion_response)
  ∧ ∃ indices : list Z,
      StronglySorted Z.lt indices
      ∧ (∀ i, i ∈ indices ↔ fragments_at i Samples.tool_turn ≠ [])
      ∧ Forall2 (λ i tc,
                   ∀ v, Reference.json_loads
                          (join "" (argument_substrings
                                      (fragments_at i Samples.tool_turn)))
                        = Some v →
                        ToolCallRequest.arguments tc = v)
                indices (LLMResponse.tool_calls Samples.tool_turn_response).
Proof.
  assert (_parse Reference.repair_nothing Samples.completion
          = Ret Samples.completion_response) as Hp by (vm_compute; reflexivity).
  assert (_consume_stream Reference.repair_nothing Samples.tool_stream
          = Ret Samples.tool_turn_response) as Hr by (vm_compute; reflexivity).
  pose proof (well_formed_arguments_decode_exactly Reference.repair_nothing
                Reference.json_loads eq_refl repair_nothing_keeps_strict)
    as [Hparse Hstream].
  split; [reflexivity|]. split; [exact repair_nothing_keeps_strict|].
  split; [exact Hp|]. split; [exact Hr|]. split.
  - exact (Hparse Samples.completion _ _ Hp eq_refl).
  - exact (Hstream _ _ Hr).
Defined.

Lemma consume_stream_content_witness :
  _consume_stream Reference.repair_nothing Samples.text_stream
  = Ret Samples.text_turn_response
  ∧ _consume_stream Reference.repair_nothing Samples.silent_stream
    = Ret (LLMResponse.with_defaults None "stop")
  ∧ join "" (content_substrings Samples.text_turn) ≠ ""
  ∧ LLMResponse.content Samples.text_turn_response
    = Some (join "" (content_substrings Samples.text_turn))
  ∧ join "" (reasoning_substrings Samples.text_turn) ≠ ""
  ∧ LLMResponse.reasoning_content Samples.text_turn_response
    = Some (join "" (reasoning_substrings Samples.text_turn))
  ∧ join "" (content_substrings Samples.silent_turn) = ""
  ∧ LLMResponse.content (LLMResponse.with_defaults None "stop") = None
  ∧ join "" (reasoning_substrings Samples.silent_turn) = ""
  ∧ LLMResponse.reasoning_content (LLMResponse.with_defaults None "stop") = None.
Proof.
  assert (_consume_stream Reference.repair_nothing Samples.text_stream
          = Ret Samples.text_turn_response) as Htext by (vm_compute; reflexivity).
  assert (_consume_stream Reference.repair_nothing Samples.silent_stream
          = Ret (LLMResponse.with_defaults None "stop")) as Hsilent
    by (vm_compute; reflexivity).
  destruct (consume_stream_content Reference.repair_nothing _ _ Htext)
    as (_ & Hcontent & _ & Hreasoning).
  destruct (consume_stream_content Reference.repair_nothing _ _ Hsilent)
    as (Hno_content & _ & Hno_reasoning & _).
  split; [exact Htext|]. split; [exact Hsilent|].
  split; [discriminate|]. split; [apply Hcontent; discriminate|].
  split; [discriminate|]. split; [apply Hreasoning; discriminate|].
  split; [reflexivity|]. split; [apply Hno_content; reflexivity|].
  split; [reflexivity|]. apply Hno_reasoning; reflexivity.
Defined.

Lemma finish_reason_last_wins_witness :
  _consume_stream Reference.repair_nothing Samples.tool_stream
  = Ret Samples.tool_turn_response
  ∧ LLMResponse.finish_reason Samples.tool_turn_response
    = default "stop" (last (finish_reasons Samples.tool_turn))
  ∧ chunk_finish_reason Samples.bare_chunk = None
  ∧ Agg.finish_reason (step (aggregate (take 4 Samples.tool_turn)) Samples.bare_chunk)
    = Agg.finish_reason (aggregate (take 4 Samples.tool_turn))
  ∧ _parse Reference.repair_nothing Samples.completion = Ret Samples.completion_response
  ∧ LLMResponse.finish_reason Samples.completion_response = "stop".
Proof.
  assert (_consume_stream Reference.repair_nothing Samples.tool_stream
          = Ret Samples.tool_turn_response) as Hr by (vm_compute; reflexivity).
  assert (_parse Reference.repair_nothing Samples.completion
          = Ret Samples.completion_response) as Hp by (vm_compute; reflexivity).
  pose proof (finish_reason_last_wins Reference.repair_nothing)
    as (Hstream & Hstep & Hparse).
  split; [exact Hr|]. split; [exact (Hstream _ _ Hr)|].
  split; [reflexivity|]. split; [apply Hstep; reflexivity|].
  split; [exact Hp|]. exact (Hparse Samples.completion _ _ Hp eq_refl).
Defined.

Lemma usage_only_chunk_witness :
  Chunk.choices (Samples.usage_chunk (Usage.Make 12 7 19)) = []
  ∧ Chunk.usage (Samples.usage_chunk (Usage.Make 12 7 19)) = Some (Usage.Make 12 7 19)
  ∧ Agg.usage (step (step (aggregate Samples.text_turn)
                          (Samples.usage_chunk (Usage.Make 100 100 200)))
                    (Samples.usage_chunk (Usage.Make 12 7 19)))
    = usage_dict (Usage.Make 12 7 19)
  ∧ Agg.content_parts (step (aggregate Samples.text_turn)
                            (Samples.usage_chunk (Usage.Make 12 7 19)))
    = Agg.content_parts (aggregate Samples.text_turn)
  ∧ _consume_stream Reference.repair_nothing Samples.tool_stream
    = Ret Samples.tool_turn_response
  ∧ LLMResponse.usage Samples.tool_turn_response
    = default ∅ (usage_dict <$> last (usage_signals Samples.tool_turn)).
Proof.
  assert (_consume_stream Reference.repair_nothing Samples.tool_stream
          = Ret Samples.tool_turn_response) as Hr by (vm_compute; reflexivity).
  pose proof (usage_only_chunk Reference.repair_nothing) as [Hstep Hstream].
  split; [reflexivity|]. split; [reflexivity|].
  split; [apply (Hstep _ (Samples.usage_chunk (Usage.Make 12 7 19))); reflexivity|].
  split; [|split; [exact Hr|exact (Hstream _ _ Hr)]].
  apply (Hstep _ (Samples.usage_chunk (Usage.Make 12 7 19)) (Usage.Make 12 7 19));
    reflexivity.
Defined.

Lemma choices_chunk_keeps_usage_witness :
  Chunk.choices Samples.mixed_chunk ≠ []
  ∧ Chunk.usage Samples.mixed_chunk = Some (Usage.Make 5 1 6)
  ∧ Agg.usage (step Agg.init Samples.mixed_chunk) = Agg.usage Agg.init.
Proof.
  split; [discriminate|]. split; [reflexivity|].
  apply choices_chunk_keeps_usage. discriminate.
Defined.

Lemma usage_absent_witness :
  Completion.usage Samples.completion = None
  ∧ _parse Reference.repair_nothing Samples.completion = Ret Samples.completion_response
  ∧ LLMResponse.usage Samples.completion_response = ∅
  ∧ (∀ chunk, chunk ∈ Samples.text_turn → Chunk.choices chunk = [] →
              Chunk.usage chunk = None)
  ∧ _consume_stream Reference.repair_nothing Samples.text_stream
    = Ret Samples.text_turn_response
  ∧ LLMResponse.usage Samples.text_turn_response = ∅
  ∧ usage_dict (Usage.Make 0 0 0) ≠ ∅.
Proof.
  assert (_parse Reference.repair_nothing Samples.completion
          = Ret Samples.completion_response) as Hp by (vm_compute; reflexivity).
  assert (_consume_stream Reference.repair_nothing Samples.text_stream
          = Ret Samples.text_turn_response) as Hr by (vm_compute; reflexivity).
  assert (∀ chunk, chunk ∈ Samples.text_turn → Chunk.choices chunk = [] →
                   Chunk.usage chunk = None) as Hnone.
  { intros chunk Hin Hch. unfold Samples.text_turn in Hin.
    repeat (apply elem_of_cons in Hin as [->|Hin]; [reflexivity || discriminate|]).
    by apply elem_of_nil in Hin. }
  pose proof (usage_absent Reference.repair_nothing) as (Hparse & Hstream & Hzero).
  split; [reflexivity|]. split; [exact Hp|].
  split; [exact (Hparse Samples.completion _ eq_refl Hp)|].
  split; [exact Hnone|]. split; [exact Hr|].
  split; [exact (Hstream Samples.text_stream _ Hnone Hr)|]. apply Hzero.
Defined.

Lemma unsupplied_id_is_empty_witness :
  _consume_stream Reference.repair_nothing Samples.tool_stream
  = Ret Samples.tool_turn_response
  ∧ ∃ indices : list Z,
      StronglySorted Z.lt indices
      ∧ (∀ i, i ∈ indices ↔ fragments_at i Samples.tool_turn ≠ [])
      ∧ Forall2 (λ i tc,
                   let fs := fragments_at i Samples.tool_turn in
                   (supplied_ids fs = [] → ToolCallRequest.id tc = "")
                   ∧ (supplied_names fs = [] → ToolCallRequest.name tc = "")
                   ∧ (ToolCallRequest.id tc = "" ∨ ToolCallRequest.id tc ∈ supplied_ids fs)
                   ∧ (ToolCallRequest.name tc = ""
                      ∨ ToolCallRequest.name tc ∈ supplied_names fs))
                indices (LLMResponse.tool_calls Samples.tool_turn_response).
Proof.
  assert (_consume_stream Reference.repair_nothing Samples.tool_stream
          = Ret Samples.tool_turn_response) as Hr by (vm_compute; reflexivity).
  split; [exact Hr|].
  exact (unsupplied_id_is_empty Reference.repair_nothing _ _ Hr).
Defined.


(** * Further properties of the provider *)

(** ** The request that [chat] composes *)

Section request.
Variable self : CustomProvider.t.
Variable sanitized : list json.
Variable tools : option (list json).
Variable model : option string.
Variable max_tokens : Z.
Variable temperature : float.
Variable reasoning_effort : option string.

Local Abbreviation kwargs :=
  (CustomProvider.request_kwargs self sanitized tools model max_tokens temperature
                                 reasoning_effort).

Ltac request_cases :=
  unfold CustomProvider.request_kwargs;
  destruct (CustomProvider.stream self), tools as [[|tool rest]|],
    (truthy_str reasoning_effort) as [effort|].

(** The model of the request is the one asked for, unless none or the empty
    string is given: then it is the default model of the provider. *)
Lemma request_model :
  kwargs !! "model"
  = Some (KStr match model with
               | Some m => if decide (m = "") then CustomProvider.default_model self else m
               | None => CustomProvider.default_model self
               end).
Proof.
  assert (default (CustomProvider.default_model self) (truthy_str model)
          = match model with
            | Some m => if decide (m = "") then CustomProvider.default_model self else m
            | None => CustomProvider.default_model self
            end) as <- by (by destruct model as [[|a m]|]).
  request_cases; by simplify_map_eq.
Qed.

(** X1.  The token limit of the request is the limit asked for, raised to 1
    when it is lower: it is never below 1 and never below what was asked. *)
Theorem request_max_tokens :
  let kwargs :=
    CustomProvider.request_kwargs self sanitized tools model max_tokens temperature
                                  reasoning_effort in
  ∃ n, kwargs !! "max_tokens" = Some (KInt n)
       ∧ 1 ≤ n
       ∧ (1 ≤ max_tokens → n = max_tokens)
       ∧ (max_tokens < 1 → n = 1).
Proof.
  intros kwargs. subst kwargs. exists (Z.max 1 max_tokens).
  split; [request_cases; by simplify_map_eq|]. lia.
Qed.

(** X3.  The request names tools exactly when [chat] is given a non-empty
    list of them, and then it passes the list as it is and sets the tool
    choice to "auto"; without tools, or with an empty list, it has neither
    key. *)
Theorem request_tools :
  let kwargs :=
    CustomProvider.request_kwargs self sanitized tools model max_tokens temperature
                                  reasoning_effort in
  (∀ tool rest, tools = Some (tool :: rest) →
                kwargs !! "tools" = Some (KList (tool :: rest))
                ∧ kwargs !! "tool_choice" = Some (KStr "auto"))
  ∧ (tools = None ∨ tools = Some [] →
     kwargs !! "tools" = None ∧ kwargs !! "tool_choice" = None)
  ∧ (is_Some (kwargs !! "tools") ↔ is_Some (kwargs !! "tool_choice")).
Proof.
  intros kwargs. subst kwargs. split; [|split].
  - intros tool' rest' ->. unfold CustomProvider.request_kwargs.
    destruct (CustomProvider.stream self), (truthy_str reasoning_effort);
      by simplify_map_eq.
  - intros Hnone. request_cases; simplify_map_eq; try done; by destruct Hnone.
  - request_cases; simplify_map_eq; split; intros [? ?]; by eauto.
Qed.

(** X4.  A provider in stream mode asks for a stream and for the usage
    report that goes with it; a provider that is not in stream mode sends
    neither key, not even a stream flag that is false. *)
Theorem request_stream :
  let kwargs :=
    CustomProvider.request_kwargs self sanitized tools model max_tokens temperature
                                  reasoning_effort in
  (CustomProvider.stream self = true →
   kwargs !! "stream" = Some (KBool true)
   ∧ kwargs !! "stream_options" = Some (KDict [("include_usage", KBool true)]))
  ∧ (CustomProvider.stream self = false →
     kwargs !! "stream" = None ∧ kwargs !! "stream_options" = None).
Proof.
  intros kwargs. subst kwargs. split; intros Hs; unfold CustomProvider.request_kwargs; rewrite Hs;
    destruct tools as [[|tool rest]|], (truthy_str reasoning_effort) as [effort|];
    by simplify_map_eq.
Qed.

(** X5.  The request always has the keys model, messages, max_tokens and
    temperature, has no key outside these and the five optional ones, and
    has the key reasoning_effort exactly when a non-empty effort is given,
    with that value. *)
Theorem request_keys :
  let kwargs :=
    CustomProvider.request_kwargs self sanitized tools model max_tokens temperature
                                  reasoning_effort in
  mandatory_keys ⊆ dom kwargs
  ∧ dom kwargs ⊆ mandatory_keys ∪ optional_keys
  ∧ kwargs !! "messages" = Some (KList sanitized)
  ∧ kwargs !! "temperature" = Some (KFloat temperature)
  ∧ kwargs !! "reasoning_effort" = KStr <$> truthy_str reasoning_effort.
Proof.
  intros kwargs. subst kwargs. unfold mandatory_keys, optional_keys.
  request_cases; rewrite ?dom_insert_L, ?dom_empty_L;
    (split; [set_solver|]); (split; [set_solver|]); by simplify_map_eq.
Qed.
End request.

(** X2.  A provider reports as default model the one it was built with,
    "default" when it was built without; a [chat] without model, or with
    the empty string as model, requests that default model, and a [chat]
    with a model requests the model given. *)
Theorem default_model_is_requested
    (AsyncOpenAI : string → string → gmap string kwarg → outcome api_response)
    (api_key api_base default_model : option string) (stream : option bool)
    (sanitized : list json) (tools : option (list json)) (max_tokens : Z)
    (temperature : float) (reasoning_effort : option string) :
  let self :=
    CustomProvider.__init__ AsyncOpenAI api_key api_base default_model stream in
  let requested model :=
    CustomProvider.request_kwargs self sanitized tools model max_tokens temperature
                                  reasoning_effort !! "model" in
  CustomProvider.get_default_model self = default "default" default_model
  ∧ requested None = Some (KStr (CustomProvider.get_default_model self))
  ∧ requested (Some "") = Some (KStr (CustomProvider.get_default_model self))
  ∧ ∀ m, m ≠ "" → requested (Some m) = Some (KStr m).
Proof.
  intros self requested. unfold requested. rewrite !request_model.
  repeat split; try done.
  intros m Hm. rewrite request_model. by rewrite decide_False.
Qed.

(** ** The boundary of [chat] *)

Section boundary.
Variable _sanitize_empty_content : list json → outcome (list json).
Variable json_repair_loads : string → outcome json.
Variable self : CustomProvider.t.
Variable messages : list json.
Variable tools : option (list json).
Variable model : option string.
Variable max_tokens : option Z.
Variable temperature : option float.
Variable reasoning_effort : option string.

Local Abbreviation chat_result :=
  (CustomProvider.chat _sanitize_empty_content json_repair_loads self messages tools
                       model max_tokens temperature reasoning_effort).

Local Abbreviation kwargs_for sanitized :=
  (CustomProvider.request_kwargs self sanitized tools model (default 4096 max_tokens)
                                 (default float_0_7 temperature) reasoning_effort).

(** X6.  The error boundary of [chat] starts after the messages are
    sanitized: a failure of the sanitizer leaves [chat] as it is, also when
    it is an instance of [Exception]; once the sanitizer has returned, an
    exception that leaves [chat] is never an instance of [Exception]. *)
Theorem boundary_starts_after_sanitizer :
  let result :=
    CustomProvider.chat _sanitize_empty_content json_repair_loads self messages tools
                        model max_tokens temperature reasoning_effort in
  (∀ e, _sanitize_empty_content messages = Raise e → result = Raise e)
  ∧ (∀ sanitized e,
       _sanitize_empty_content messages = Ret sanitized →
       result = Raise e → is_Exception e = false).
Proof.
  intros result. subst result. split.
  - intros e He. unfold CustomProvider.chat. by rewrite He.
  - intros sanitized e Hs. unfold CustomProvider.chat. rewrite Hs. simpl.
    unfold try_except.
    destruct (_ ≫= _) as [r|e']; [done|].
    destruct (is_Exception e') eqn:He'; [done|]. by intros [= <-].
Qed.

Lemma truthy_str_nonempty (o : option string) (x : string) :
  truthy_str o = Some x → x ≠ "".
Proof. destruct o as [[|a y]|]; simpl; [done| |done]. by intros [= <-]. Qed.

Lemma or_None_never_empty (x : string) : or_None x ≠ Some "".
Proof. by destruct x. Qed.

Lemma finish_reasons_nonempty (chunks : list Chunk.t) :
  Forall (λ fr, fr ≠ "") (finish_reasons chunks).
Proof.
  unfold finish_reasons. induction chunks as [|chunk chunks IH]; [constructor|].
  simpl. destruct (chunk_finish_reason chunk) as [fr|] eqn:Hfr; [|done].
  constructor; [|done].
  unfold chunk_finish_reason in Hfr. destruct (first_choice chunk); [|done].
  by eapply truthy_str_nonempty.
Qed.

Lemma usage_dict_keys (u : Usage.t) : dom (usage_dict u) = usage_keys.
Proof.
  unfold usage_dict, usage_keys. rewrite !dom_insert_L, dom_empty_L. set_solver.
Qed.

Lemma consume_stream_well_formed (s : stream) (r : LLMResponse.t) :
  _consume_stream json_repair_loads s = Ret r →
  well_formed_response r ∧ LLMResponse.content r ≠ Some "".
Proof.
  intros (_ & tcs & _ & ->)%consume_stream_Ret. unfold well_formed_response. simpl.
  repeat split; try apply or_None_never_empty.
  - rewrite aggregate_finish_reason.
    destruct (last (finish_reasons (delivered s))) as [fr|] eqn:Hlast; [|done].
    pose proof (finish_reasons_nonempty (delivered s)) as Hall.
    rewrite Forall_forall in Hall. apply Hall. by eapply last_Some_elem_of.
  - rewrite aggregate_usage.
    destruct (last (usage_signals (delivered s))) as [u|]; simpl; [right|by left].
    apply usage_dict_keys.
Qed.

Lemma parse_well_formed (response : Completion.t) (r : LLMResponse.t) :
  _parse json_repair_loads response = Ret r → well_formed_response r.
Proof.
  intros (choice & tcs & _ & _ & ->)%parse_Ret. unfold well_formed_response. simpl.
  repeat split.
  - destruct (truthy_str (Choice.finish_reason choice)) as [fr|] eqn:Hfr; [|done].
    by eapply truthy_str_nonempty.
  - intros Hrc. by apply truthy_str_nonempty in Hrc.
  - destruct (Completion.usage response) as [u|]; [right|by left].
    apply usage_dict_keys.
Qed.

(** X7.  Every response that [chat] returns, from the stream aggregator,
    from the non-stream parser or from the error handler, has a finish
    reason that is not the empty string, a reasoning content that is absent
    rather than empty, and a usage that is either the empty mapping or has
    exactly the keys prompt_tokens, completion_tokens and total_tokens; in
    stream mode its content is absent rather than empty as well. *)
Theorem chat_response_shape (r : LLMResponse.t) :
  CustomProvider.chat _sanitize_empty_content json_repair_loads self messages tools
                      model max_tokens temperature reasoning_effort
  = Ret r →
  LLMResponse.finish_reason r ≠ ""
  ∧ LLMResponse.reasoning_content r ≠ Some ""
  ∧ (LLMResponse.usage r = ∅ ∨ dom (LLMResponse.usage r) = usage_keys)
  ∧ (CustomProvider.stream self = true → LLMResponse.content r ≠ Some "").
Proof.
  unfold CustomProvider.chat.
  destruct (_sanitize_empty_content messages) as [sanitized|e]; [simpl|done].
  destruct (CustomProvider._client self (kwargs_for sanitized)) as [response|e];
    simpl.
  - destruct (CustomProvider.stream self) eqn:Hmode.
    + destruct response as [s|c]; simpl.
      * destruct (_consume_stream json_repair_loads s) as [r'|e] eqn:Hr; simpl.
        -- intros [= <-].
           by destruct (consume_stream_well_formed _ _ Hr) as [(? & ? & ?) ?].
        -- destruct (is_Exception e); [|done]. intros [= <-]. simpl.
           repeat split; try done. by left.
      * intros [= <-]. simpl. repeat split; try done. by left.
    + destruct response as [s|c]; simpl.
      * intros [= <-]. simpl. repeat split; try done. by left.
      * destruct (_parse json_repair_loads c) as [r'|e] eqn:Hr; simpl.
        -- intros [= <-].
           by destruct (parse_well_formed _ _ Hr) as (? & ? & ?).
        -- destruct (is_Exception e); [|done]. intros [= <-]. simpl.
           repeat split; try done. by left.
  - destruct (is_Exception e); [|done]. intros [= <-]. simpl.
    repeat split; try done. by left.
Qed.

(** X15.  When the transport breaks in the middle of a stream, [chat]
    returns the error response for that failure and nothing of what the
    chunks delivered before: no tool call, no usage, no reasoning, and as
    content only the diagnostic. *)
Theorem broken_stream_keeps_nothing (sanitized : list json) (s : stream) (e : exn) :
  _sanitize_empty_content messages = Ret sanitized →
  CustomProvider.stream self = true →
  CustomProvider._client self (kwargs_for sanitized) = Ret (AsyncStream s) →
  failure s = Some e →
  is_Exception e = true →
  ∃ r, CustomProvider.chat _sanitize_empty_content json_repair_loads self messages
         tools model max_tokens temperature reasoning_effort
       = Ret r
       ∧ LLMResponse.content r = Some ("Error: " +:+ str e)
       ∧ LLMResponse.finish_reason r = "error"
       ∧ LLMResponse.tool_calls r = []
       ∧ LLMResponse.usage r = ∅
       ∧ LLMResponse.reasoning_content r = None.
Proof.
  intros Hs Hmode Hclient Hf He. exists (error_response e).
  unfold CustomProvider.chat. rewrite Hs. simpl. rewrite Hclient, Hmode. simpl.
  unfold _consume_stream. rewrite Hf. simpl. by rewrite He.
Qed.
End boundary.

(** ** More on the stream aggregator *)

Lemma falsy_truthy_str (o : option string) : falsy o = true → truthy_str o = None.
Proof. unfold falsy. by destruct (truthy_str o). Qed.

Lemma step_carries_nothing (st : Agg.t) (chunk : Chunk.t) :
  carries_nothing chunk = true → step st chunk = st.
Proof.
  unfold carries_nothing, step.
  destruct chunk as [[|[fr delta] rest] [u|]], st as [cp by_index f us rp]; simpl;
    try done.
  all: intros [Hfr Hdelta]%andb_prop; rewrite (falsy_truthy_str _ Hfr).
  all: destruct delta as [[c rc tcs]|]; simpl in *; [|done].
  all: apply andb_prop in Hdelta as [[Hc Hrc]%andb_prop Htcs].
  all: rewrite (falsy_truthy_str _ Hc), (falsy_truthy_str _ Hrc).
  all: by destruct tcs as [[|tc tcs]|].
Qed.

Lemma fold_step_filter (chunks : list Chunk.t) (st : Agg.t) :
  fold_left step (filter (λ chunk, carries_nothing chunk = false) chunks) st
  = fold_left step chunks st.
Proof.
  revert st. induction chunks as [|chunk chunks IH]; intros st; [done|].
  destruct (carries_nothing chunk) eqn:Hc.
  - rewrite filter_cons_False by (by rewrite Hc). simpl.
    by rewrite step_carries_nothing.
  - rewrite filter_cons_True by done. simpl. apply IH.
Qed.

Lemma consume_stream_same_state (loads : string → outcome json) (s s' : stream) :
  aggregate (delivered s) = aggregate (delivered s') → failure s = failure s' →
  _consume_stream loads s = _consume_stream loads s'.
Proof. intros Ha Hf. unfold _consume_stream. by rewrite Ha, Hf. Qed.

(** X8.  Chunks that carry nothing (keep-alives without choices and usage,
    choices without delta and finish reason, deltas of empty strings and
    empty fragment lists) leave no trace: taking them out of a stream does
    not change what the aggregator returns or raises, and a stream of
    nothing but such chunks, the empty stream among them, gives the
    response without content, tool calls, usage and reasoning whose finish
    reason is "stop". *)
Theorem empty_chunks_leave_no_trace
    (json_repair_loads : string → outcome json) (chunks : list Chunk.t) :
  (∀ ending,
     _consume_stream json_repair_loads
       (Stream (filter (λ chunk, carries_nothing chunk = false) chunks) ending)
     = _consume_stream json_repair_loads (Stream chunks ending))
  ∧ (Forall (λ chunk, carries_nothing chunk = true) chunks →
     _consume_stream json_repair_loads (Stream chunks None)
     = Ret (LLMResponse.with_defaults None "stop")).
Proof.
  split.
  - intros ending. apply consume_stream_same_state; [|done]. simpl.
    apply fold_step_filter.
  - intros Hall.
    assert (filter (λ chunk, carries_nothing chunk = false) chunks = []) as Hnil.
    { induction Hall as [|chunk chunks' Hc _ IH]; [done|].
      rewrite filter_cons_False by (by rewrite Hc). done. }
    rewrite <- (consume_stream_same_state json_repair_loads
                  (Stream (filter (λ chunk, carries_nothing chunk = false) chunks) None)).
    + by rewrite Hnil.
    + simpl. apply fold_step_filter.
    + done.
Qed.

Lemma step_first_choice_only (st : Agg.t) (chunk : Chunk.t) :
  step st (first_choice_only chunk) = step st chunk.
Proof. by destruct chunk as [[|choice rest] u]. Qed.

(** X9.  The aggregator reads the first choice of a chunk and nothing else
    of a chunk that has choices: cutting every chunk down to its first
    choice, without the further choices and without the usage object, does
    not change what it returns or raises. *)
Theorem only_first_choice_is_read
    (json_repair_loads : string → outcome json) (s : stream) :
  _consume_stream json_repair_loads
    (Stream (first_choice_only <$> delivered s) (failure s))
  = _consume_stream json_repair_loads s.
Proof.
  apply consume_stream_same_state; [|done]. simpl.
  unfold aggregate. generalize Agg.init.
  induction (delivered s) as [|chunk chunks IH]; intros st; [done|].
  simpl. rewrite step_first_choice_only. apply IH.
Qed.

Lemma mapM_ext_elem_of {A B} (f g : A → outcome B) (l : list A) :
  (∀ x, x ∈ l → f x = g x) → mapM f l = mapM g l.
Proof.
  induction l as [|x l IH]; intros Hfg; [done|].
  simpl. rewrite (Hfg x) by (by left).
  rewrite IH; [done|]. intros y Hy. apply Hfg. by right.
Qed.

Lemma sorted_items_entry (chunks : list Chunk.t) (i : Z) (entry : Entry.t) :
  (i, entry) ∈ sorted_items (Agg.tool_calls_by_index (aggregate chunks))
  ↔ fragments_at i chunks ≠ [] ∧ entry = entry_of (fragments_at i chunks).
Proof. by rewrite sorted_items_elem_of, aggregate_entries, entry_view_Some. Qed.

(** X10.  The decoder is consulted on the accumulated argument strings and
    on nothing else: two decoders that agree on the non-empty accumulated
    argument string of every index give the same result, however they
    differ on the pieces in which the strings arrived. *)
Theorem decoder_sees_accumulated_strings_only
    (loads1 loads2 : string → outcome json) (s : stream) :
  (∀ i, fragments_at i (delivered s) ≠ [] →
        accumulated_arguments (fragments_at i (delivered s)) ≠ "" →
        loads1 (accumulated_arguments (fragments_at i (delivered s)))
        = loads2 (accumulated_arguments (fragments_at i (delivered s)))) →
  _consume_stream loads1 s = _consume_stream loads2 s.
Proof.
  intros Hagree. unfold _consume_stream.
  destruct (failure s); [done|].
  rewrite (mapM_ext_elem_of (λ item : Z * Entry.t, assemble loads1 item.2)
                            (λ item : Z * Entry.t, assemble loads2 item.2)); [done|].
  intros [i entry] [Hne ->]%sorted_items_entry. simpl.
  unfold assemble, stream_arguments. simpl.
  destruct (truthy (accumulated_arguments (fragments_at i (delivered s)))) eqn:Ht;
    [|done].
  rewrite Hagree; [done..|]. by apply truthy_true.
Qed.

Lemma mapM_raises_first {A B} (f : A → outcome B) (l1 l2 : list A) (x : A) (e : exn) :
  Forall (λ y, ∃ v, f y = Ret v) l1 → f x = Raise e →
  mapM f (l1 ++ x :: l2) = Raise e.
Proof.
  intros Hl1 Hx. induction Hl1 as [|y l1 [v Hy] _ IH]; simpl.
  - by rewrite Hx.
  - rewrite Hy. simpl. by rewrite IH.
Qed.

(** X11.  When the decoder raises on the accumulated argument strings of
    several tool calls, the failure that leaves the aggregator is the one of
    the lowest index among them, whatever the order in which the fragments
    arrived. *)
Theorem lowest_failing_index_raises
    (json_repair_loads : string → outcome json) (s : stream) (i : Z) (e : exn) :
  failure s = None →
  fragments_at i (delivered s) ≠ [] →
  accumulated_arguments (fragments_at i (delivered s)) ≠ "" →
  json_repair_loads (accumulated_arguments (fragments_at i (delivered s))) = Raise e →
  (∀ j, j < i → fragments_at j (delivered s) ≠ [] →
        ∃ v, stream_arguments json_repair_loads
               (accumulated_arguments (fragments_at j (delivered s))) = Ret v) →
  _consume_stream json_repair_loads s = Raise e.
Proof.
  intros Hf Hfs Hne He Hbelow. unfold _consume_stream. rewrite Hf.
  set (items := sorted_items (Agg.tool_calls_by_index (aggregate (delivered s)))).
  assert ((i, entry_of (fragments_at i (delivered s))) ∈ items) as Hin
    by (by apply sorted_items_entry).
  apply list_elem_of_split in Hin as (l1 & l2 & Hitems).
  pose proof (sorted_items_ascending (Agg.tool_calls_by_index (aggregate (delivered s))))
    as Hsorted.
  fold items in Hsorted. rewrite Hitems in Hsorted |- *.
  rewrite fmap_app in Hsorted.
  apply StronglySorted_app in Hsorted as (Hlt & _ & _).
  rewrite (mapM_raises_first _ l1 l2 _ e); [done| |].
  - apply Forall_forall. intros [j entry] Hj.
    assert (j < i) as Hji.
    { apply (Hlt j i); [by apply (list_elem_of_fmap_2 fst _ (j, entry))|].
      rewrite fmap_cons. by left. }
    assert ((j, entry) ∈ items) as [Hjne ->]%sorted_items_entry.
    { rewrite Hitems. apply elem_of_app. by left. }
    destruct (Hbelow j Hji Hjne) as [v Hv].
    exists (ToolCallRequest.Make
              (Entry.id (entry_of (fragments_at j (delivered s))))
              (Entry.name (entry_of (fragments_at j (delivered s)))) v).
    by apply assemble_Ret.
  - unfold assemble. simpl. rewrite stream_arguments_nonempty by done. by rewrite He.
Qed.

Lemma fold_step_content_prefix (more : list Chunk.t) (st : Agg.t) :
  Agg.content_parts st `prefix_of` Agg.content_parts (fold_left step more st)
  ∧ Agg.reasoning_parts st `prefix_of` Agg.reasoning_parts (fold_left step more st).
Proof.
  revert st. induction more as [|chunk more IH]; intros st; [done|].
  simpl. destruct (IH (step st chunk)) as [Hc Hr].
  split; (etrans; [|eassumption]).
  - unfold step. destruct chunk as [[|[fr [[c rc tcs]|]] rest] [u|]]; simpl;
      try done; destruct (truthy_str c); try done; by apply prefix_app_r.
  - unfold step. destruct chunk as [[|[fr [[c rc tcs]|]] rest] [u|]]; simpl;
      try done; destruct (truthy_str rc); try done; by apply prefix_app_r.
Qed.

Lemma fragments_app (chunks more : list Chunk.t) :
  fragments (chunks ++ more) = fragments chunks ++ fragments more.
Proof. unfold fragments. apply bind_app. Qed.

(** X12.  Later chunks only add to what earlier chunks built: the content
    and reasoning buffers after more chunks extend the buffers before, an
    index that has an entry keeps one, and the argument text of an entry
    after more chunks is the text before followed by the argument
    substrings that the further chunks carry for that index. *)
Theorem later_chunks_only_add (chunks more : list Chunk.t) :
  Agg.content_parts (aggregate chunks)
    `prefix_of` Agg.content_parts (aggregate (chunks ++ more))
  ∧ Agg.reasoning_parts (aggregate chunks)
      `prefix_of` Agg.reasoning_parts (aggregate (chunks ++ more))
  ∧ ∀ i entry,
      Agg.tool_calls_by_index (aggregate chunks) !! i = Some entry →
      ∃ entry',
        Agg.tool_calls_by_index (aggregate (chunks ++ more)) !! i = Some entry'
        ∧ Entry.arguments entry'
          = Entry.arguments entry +:+ accumulated_arguments (fragments_at i more).
Proof.
  assert (aggregate (chunks ++ more) = fold_left step more (aggregate chunks)) as ->
    by (unfold aggregate; apply fold_left_app).
  destruct (fold_step_content_prefix more (aggregate chunks)) as [Hc Hr].
  split; [done|]. split; [done|].
  intros i entry Hentry.
  assert (fold_left step more (aggregate chunks) = aggregate (chunks ++ more)) as ->
    by (unfold aggregate; symmetry; apply fold_left_app).
  rewrite aggregate_entries in Hentry |- *.
  apply entry_view_Some in Hentry as [Hne ->].
  unfold fragments_at in *. rewrite fragments_app. unfold at_index in *.
  rewrite filter_app.
  eexists. split.
  - apply entry_view_Some. split; [|done].
    intros [Hnil _]%app_eq_nil. done.
  - simpl. unfold accumulated_arguments, argument_substrings.
    by rewrite omap_app, join_app.
Qed.

Lemma consume_stream_decoder_raises
    (json_repair_loads : string → outcome json) (s : stream) (i : Z) (e : exn) :
  failure s = None →
  fragments_at i (delivered s) ≠ [] →
  accumulated_arguments (fragments_at i (delivered s)) ≠ "" →
  json_repair_loads (accumulated_arguments (fragments_at i (delivered s))) = Raise e →
  ∃ e', _consume_stream json_repair_loads s = Raise e'.
Proof.
  intros Hf Hfs Hne He. unfold _consume_stream. rewrite Hf.
  destruct (mapM_raises (λ item : Z * Entry.t, assemble json_repair_loads item.2)
              (sorted_items (Agg.tool_calls_by_index (aggregate (delivered s)))))
    as [e' He'].
  { apply Exists_exists.
    exists (i, entry_of (fragments_at i (delivered s))). split.
    - by apply sorted_items_entry.
    - exists e. unfold assemble. simpl.
      rewrite stream_arguments_nonempty by done. by rewrite He. }
  exists e'. by rewrite He'.
Qed.

(** X13.  The stream aggregator returns a response exactly when the stream
    ends by exhaustion and the decoder returns on the non-empty accumulated
    argument string of every index; nothing else makes it raise. *)
Theorem consume_stream_returns_iff
    (json_repair_loads : string → outcome json) (s : stream) :
  (∃ r, _consume_stream json_repair_loads s = Ret r)
  ↔ failure s = None
    ∧ ∀ i, fragments_at i (delivered s) ≠ [] →
           accumulated_arguments (fragments_at i (delivered s)) ≠ "" →
           ∃ v, json_repair_loads (accumulated_arguments (fragments_at i (delivered s)))
                = Ret v.
Proof.
  split.
  - intros [r Hr]. split; [by apply consume_stream_Ret in Hr as [? _]|].
    intros i Hfs Hne.
    destruct (json_repair_loads (accumulated_arguments (fragments_at i (delivered s))))
      as [v|e] eqn:He; [by eexists|].
    destruct (consume_stream_decoder_raises json_repair_loads s i e) as [e' He'];
      try done.
    + by apply consume_stream_Ret in Hr as [? _].
    + by rewrite Hr in He'.
  - intros [Hf Hdec]. apply consume_stream_returns; [done|].
    intros i Hfs.
    destruct (decide (accumulated_arguments (fragments_at i (delivered s)) = ""))
      as [->|Hne]; [by eexists|].
    rewrite stream_arguments_nonempty by done. by apply Hdec.
Qed.

(** ** More on the non-stream parser *)

Lemma convert_returns (loads : string → outcome json) (tcs : list ToolCall.t) :
  Forall (λ tc, ∃ req, convert loads tc = Ret req) tcs
  ↔ Forall (λ a, ∃ v, loads a = Ret v) (string_arguments tcs).
Proof.
  unfold string_arguments.
  induction tcs as [|tc tcs IH]; [by split; constructor|].
  simpl. rewrite Forall_cons, IH.
  destruct tc as [i [n [a|v]]]; simpl.
  - rewrite Forall_cons. unfold convert. simpl. split.
    + intros [[req Hreq] ?]. split; [|done].
      destruct (loads a) as [v|e]; [by eexists|done].
    + intros [[v Hv] ?]. split; [|done]. rewrite Hv. by eexists.
  - split; [by intros [_ ?]|]. intros ?. split; [|done]. by eexists.
Qed.

(** X14.  The non-stream parser returns a response exactly when the
    completion object has a choice and the decoder returns on every
    argument string of the tool calls of the first choice; on a completion
    object without choices it raises the [IndexError] of the empty list. *)
Theorem parse_returns_iff
    (json_repair_loads : string → outcome json) (response : Completion.t) :
  ((∃ r, _parse json_repair_loads response = Ret r)
   ↔ ∃ choice,
       head (Completion.choices response) = Some choice
       ∧ Forall (λ a, ∃ v, json_repair_loads a = Ret v)
                (string_arguments
                   (default [] (Message.tool_calls (Choice.message choice)))))
  ∧ (Completion.choices response = [] →
     _parse json_repair_loads response = Raise IndexError).
Proof.
  split.
  - split.
    + intros [r (choice & tcs & Hhead & Hm & _)%parse_Ret].
      exists choice. split; [done|].
      apply convert_returns. apply mapM_Ret in Hm.
      induction Hm as [|tc req ? ? Htc _ IH]; constructor; [by eexists|done].
    + intros (choice & Hhead & Hall).
      apply convert_returns, mapM_returns in Hall as [tcs Htcs].
      eexists. apply parse_Ret. exists choice, tcs. by repeat split.
  - intros Hnil. unfold _parse. by rewrite Hnil.
Qed.

(** * The further properties on the sample traffic *)

Lemma request_max_tokens_witness :
  ∃ n, CustomProvider.request_kwargs Fixtures.plain Fixtures.hello None None 0
         float_0_7 None !! "max_tokens" = Some (KInt n)
       ∧ 1 ≤ n
       ∧ (1 ≤ 0 → n = 0)
       ∧ (0 < 1 → n = 1).
Proof. apply request_max_tokens. Defined.

Lemma default_model_is_requested_witness :
  CustomProvider.get_default_model Fixtures.streaming = "qwen"
  ∧ CustomProvider.request_kwargs Fixtures.streaming Fixtures.hello None None 4096
      float_0_7 None !! "model"
    = Some (KStr (CustomProvider.get_default_model Fixtures.streaming))
  ∧ CustomProvider.request_kwargs Fixtures.streaming Fixtures.hello None (Some "") 4096
      float_0_7 None !! "model"
    = Some (KStr (CustomProvider.get_default_model Fixtures.streaming))
  ∧ ∀ m, m ≠ "" →
         CustomProvider.request_kwargs Fixtures.streaming Fixtures.hello None (Some m)
           4096 float_0_7 None !! "model"
         = Some (KStr m).
Proof.
  exact (default_model_is_requested Fixtures.fake_openai None None (Some "qwen")
           (Some true) Fixtures.hello None 4096 float_0_7 None).
Defined.

Lemma request_tools_witness :
  CustomProvider.request_kwargs Fixtures.plain Fixtures.hello
    (Some [Fixtures.weather_tool]) None 4096 float_0_7 None !! "tools"
  = Some (KList [Fixtures.weather_tool])
  ∧ CustomProvider.request_kwargs Fixtures.plain Fixtures.hello
      (Some [Fixtures.weather_tool]) None 4096 float_0_7 None !! "tool_choice"
    = Some (KStr "auto")
  ∧ CustomProvider.request_kwargs Fixtures.plain Fixtures.hello
      (Some []) None 4096 float_0_7 None !! "tools" = None
  ∧ CustomProvider.request_kwargs Fixtures.plain Fixtures.hello
      (Some []) None 4096 float_0_7 None !! "tool_choice" = None.
Proof.
  destruct (request_tools Fixtures.plain Fixtures.hello (Some [Fixtures.weather_tool])
              None 4096 float_0_7 None) as (Hwith & _ & _).
  destruct (request_tools Fixtures.plain Fixtures.hello (Some []) None 4096 float_0_7
              None) as (_ & Hwithout & _).
  destruct (Hwith Fixtures.weather_tool [] eq_refl) as [Htools Hchoice].
  destruct (Hwithout (or_intror eq_refl)) as [Hno_tools Hno_choice].
  repeat split; assumption.
Defined.

Lemma request_stream_witness :
  CustomProvider.stream Fixtures.streaming = true
  ∧ CustomProvider.request_kwargs Fixtures.streaming Fixtures.hello None None 4096
      float_0_7 None !! "stream" = Some (KBool true)
  ∧ CustomProvider.request_kwargs Fixtures.streaming Fixtures.hello None None 4096
      float_0_7 None !! "stream_options"
    = Some (KDict [("include_usage", KBool true)])
  ∧ CustomProvider.stream Fixtures.plain = false
  ∧ CustomProvider.request_kwargs Fixtures.plain Fixtures.hello None None 4096
      float_0_7 None !! "stream" = None
  ∧ CustomProvider.request_kwargs Fixtures.plain Fixtures.hello None None 4096
      float_0_7 None !! "stream_options" = None.
Proof.
  destruct (request_stream Fixtures.streaming Fixtures.hello None None 4096 float_0_7
              None) as (Hon & _).
  destruct (request_stream Fixtures.plain Fixtures.hello None None 4096 float_0_7
              None) as (_ & Hoff).
  destruct (Hon eq_refl) as [Hstream Hoptions].
  destruct (Hoff eq_refl) as [Hno_stream Hno_options].
  repeat split; assumption.
Defined.

Lemma boundary_starts_after_sanitizer_witness :
  Fixtures.reject_messages Fixtures.hello = Raise Fixtures.ValueError
  ∧ is_Exception Fixtures.ValueError = true
  ∧ CustomProvider.chat Fixtures.reject_messages Reference.repair_nothing
      Fixtures.streaming Fixtures.hello None None None None None
    = Raise Fixtures.ValueError.
Proof.
  split; [reflexivity|]. split; [reflexivity|].
  destruct (boundary_starts_after_sanitizer Fixtures.reject_messages
              Reference.repair_nothing Fixtures.streaming Fixtures.hello None None None
              None None) as [Hraise _].
  apply Hraise. reflexivity.
Defined.

Lemma chat_response_shape_witness :
  CustomProvider.chat Fixtures.keep_messages Reference.repair_nothing
    Fixtures.streaming Fixtures.hello None None None None None
  = Ret Samples.tool_turn_response
  ∧ LLMResponse.finish_reason Samples.tool_turn_response ≠ ""
  ∧ LLMResponse.reasoning_content Samples.tool_turn_response ≠ Some ""
  ∧ (LLMResponse.usage Samples.tool_turn_response = ∅
     ∨ dom (LLMResponse.usage Samples.tool_turn_response) = usage_keys)
  ∧ (CustomProvider.stream Fixtures.streaming = true →
     LLMResponse.content Samples.tool_turn_response ≠ Some "").
Proof.
  assert (CustomProvider.chat Fixtures.keep_messages Reference.repair_nothing
            Fixtures.streaming Fixtures.hello None None None None None
          = Ret Samples.tool_turn_response) as Hr by (vm_compute; reflexivity).
  split; [exact Hr|]. exact (chat_response_shape _ _ _ _ _ _ _ _ _ _ Hr).
Defined.

Lemma broken_stream_keeps_nothing_witness :
  Fixtures.keep_messages Fixtures.hello = Ret Fixtures.hello
  ∧ CustomProvider.stream Fixtures.unlucky = true
  ∧ failure Samples.broken_stream = Some Samples.ConnectionError
  ∧ is_Exception Samples.ConnectionError = true
  ∧ ∃ r, CustomProvider.chat Fixtures.keep_messages Reference.repair_nothing
           Fixtures.unlucky Fixtures.hello None None None None None = Ret r
         ∧ LLMResponse.content r = Some ("Error: " +:+ str Samples.ConnectionError)
         ∧ LLMResponse.finish_reason r = "error"
         ∧ LLMResponse.tool_calls r = []
         ∧ LLMResponse.usage r = ∅
         ∧ LLMResponse.reasoning_content r = None.
Proof.
  split; [reflexivity|]. split; [reflexivity|]. split; [reflexivity|].
  split; [reflexivity|].
  apply (broken_stream_keeps_nothing Fixtures.keep_messages Reference.repair_nothing
           Fixtures.unlucky Fixtures.hello None None None None None Fixtures.hello
           Samples.broken_stream Samples.ConnectionError); reflexivity.
Defined.

Lemma empty_chunks_leave_no_trace_witness :
  _consume_stream Reference.repair_nothing
    (Stream (filter (λ chunk, carries_nothing chunk = false) Fixtures.noisy_text_turn)
            None)
  = _consume_stream Reference.repair_nothing (Stream Fixtures.noisy_text_turn None)
  ∧ Forall (λ chunk, carries_nothing chunk = true) Samples.silent_turn
  ∧ _consume_stream Reference.repair_nothing (Stream Samples.silent_turn None)
    = Ret (LLMResponse.with_defaults None "stop").
Proof.
  destruct (empty_chunks_leave_no_trace Reference.repair_nothing
              Fixtures.noisy_text_turn) as [Hfilter _].
  destruct (empty_chunks_leave_no_trace Reference.repair_nothing Samples.silent_turn)
    as [_ Hsilent].
  assert (Forall (λ chunk, carries_nothing chunk = true) Samples.silent_turn) as Hall
    by (repeat constructor).
  split; [apply Hfilter|]. split; [exact Hall|]. exact (Hsilent Hall).
Defined.

(** Decides, on a stream given chunk by chunk, which fragments carry an
    index that is not known: rewrites the fragments of the stream into the
    list they are and sorts them by a case on each index. *)
Ltac fragments_by_cases chunks :=
  unfold accumulated_arguments, fragments_at, at_index in *;
  let l := eval vm_compute in (fragments chunks) in
  change (fragments chunks) with l in *;
  rewrite ?filter_cons, ?filter_nil in *;
  repeat case_decide; simpl in *; try lia; try done.

Lemma decoder_sees_accumulated_strings_only_witness :
  (∀ i, fragments_at i (delivered Samples.tool_stream) ≠ [] →
        accumulated_arguments (fragments_at i (delivered Samples.tool_stream)) ≠ "" →
        Reference.repair_nothing
          (accumulated_arguments (fragments_at i (delivered Samples.tool_stream)))
        = Reference.strict_or_raise
            (accumulated_arguments (fragments_at i (delivered Samples.tool_stream))))
  ∧ Reference.repair_nothing Samples.piece1 ≠ Reference.strict_or_raise Samples.piece1
  ∧ _consume_stream Reference.repair_nothing Samples.tool_stream
    = _consume_stream Reference.strict_or_raise Samples.tool_stream.
Proof.
  assert (∀ i, fragments_at i (delivered Samples.tool_stream) ≠ [] →
               accumulated_arguments (fragments_at i (delivered Samples.tool_stream)) ≠ "" →
               Reference.repair_nothing
                 (accumulated_arguments (fragments_at i (delivered Samples.tool_stream)))
               = Reference.strict_or_raise
                   (accumulated_arguments
                      (fragments_at i (delivered Samples.tool_stream)))) as Hagree.
  { intros i _ Hne. destruct (decide (i = 0)) as [->|Hi]; [vm_compute; reflexivity|].
    exfalso. apply Hne. fragments_by_cases (delivered Samples.tool_stream). }
  split; [exact Hagree|]. split; [vm_compute; discriminate|].
  exact (decoder_sees_accumulated_strings_only _ _ _ Hagree).
Defined.

Lemma lowest_failing_index_raises_witness :
  failure Fixtures.two_unreadable = None
  ∧ fragments_at 1 (delivered Fixtures.two_unreadable) ≠ []
  ∧ Fixtures.complaining
      (accumulated_arguments (fragments_at 1 (delivered Fixtures.two_unreadable)))
    = Raise {| is_Exception := true; str := "cannot decode ???" |}
  ∧ Fixtures.complaining
      (accumulated_arguments (fragments_at 3 (delivered Fixtures.two_unreadable)))
    = Raise {| is_Exception := true; str := "cannot decode !!!" |}
  ∧ _consume_stream Fixtures.complaining Fixtures.two_unreadable
    = Raise {| is_Exception := true; str := "cannot decode ???" |}.
Proof.
  split; [reflexivity|]. split; [vm_compute; discriminate|].
  split; [vm_compute; reflexivity|]. split; [vm_compute; reflexivity|].
  apply (lowest_failing_index_raises Fixtures.complaining Fixtures.two_unreadable 1).
  - reflexivity.
  - vm_compute; discriminate.
  - vm_compute; discriminate.
  - vm_compute; reflexivity.
  - intros j Hj Hne. destruct (decide (j = 0)) as [->|Hj0].
    + eexists. vm_compute. reflexivity.
    + exfalso. apply Hne. fragments_by_cases (delivered Fixtures.two_unreadable).
Defined.

Lemma later_chunks_only_add_witness :
  Agg.tool_calls_by_index (aggregate (take 2 Samples.tool_turn)) !! 0
  = Some (Entry.Make "call_1" "get_weather" Samples.piece1)
  ∧ Agg.content_parts (aggregate (take 2 Samples.text_turn))
      `prefix_of` Agg.content_parts
                    (aggregate (take 2 Samples.text_turn ++ drop 2 Samples.text_turn))
  ∧ ∃ entry',
      Agg.tool_calls_by_index
        (aggregate (take 2 Samples.tool_turn ++ drop 2 Samples.tool_turn)) !! 0
      = Some entry'
      ∧ Entry.arguments entry'
        = Samples.piece1
          +:+ accumulated_arguments (fragments_at 0 (drop 2 Samples.tool_turn)).
Proof.
  assert (Agg.tool_calls_by_index (aggregate (take 2 Samples.tool_turn)) !! 0
          = Some (Entry.Make "call_1" "get_weather" Samples.piece1)) as Hentry
    by (vm_compute; reflexivity).
  destruct (later_chunks_only_add (take 2 Samples.text_turn) (drop 2 Samples.text_turn))
    as (Hcontent & _ & _).
  destruct (later_chunks_only_add (take 2 Samples.tool_turn) (drop 2 Samples.tool_turn))
    as (_ & _ & Hentries).
  split; [exact Hentry|]. split; [exact Hcontent|]. exact (Hentries _ _ Hentry).
Defined.

Lemma consume_stream_returns_iff_witness :
  (∃ r, _consume_stream Reference.strict_or_raise Samples.tool_stream = Ret r)
  ∧ failure Samples.tool_stream = None
  ∧ (∀ i, fragments_at i (delivered Samples.tool_stream) ≠ [] →
          accumulated_arguments (fragments_at i (delivered Samples.tool_stream)) ≠ "" →
          ∃ v, Reference.strict_or_raise
                 (accumulated_arguments (fragments_at i (delivered Samples.tool_stream)))
               = Ret v)
  ∧ ¬ (∃ r, _consume_stream Reference.strict_or_raise Samples.garbled_stream = Ret r).
Proof.
  assert (∃ r, _consume_stream Reference.strict_or_raise Samples.tool_stream = Ret r)
    as Hr by (eexists; vm_compute; reflexivity).
  split; [exact Hr|].
  destruct (proj1 (consume_stream_returns_iff Reference.strict_or_raise
                     Samples.tool_stream) Hr) as [Hf Hdec].
  split; [exact Hf|]. split; [exact Hdec|].
  intros [_ Hgarbled]%consume_stream_returns_iff.
  destruct (Hgarbled 0) as [v Hv]; [vm_compute; discriminate..|].
  vm_compute in Hv. discriminate.
Defined.

Lemma parse_returns_iff_witness :
  head (Completion.choices Fixtures.two_calls)
  = Some (Choice.Make
            (Message.Make (Some "")
               (Some [ToolCall.Make "c0" (Function.Make "f" (ArgStr "{}"));
                      ToolCall.Make "c1" (Function.Make "g" (ArgValue (JList [])))])
               (Some ""))
            (Some "tool_calls"))
  ∧ Forall (λ a, ∃ v, Reference.strict_or_raise a = Ret v) ["{}"]
  ∧ (∃ r, _parse Reference.strict_or_raise Fixtures.two_calls = Ret r)
  ∧ Completion.choices Fixtures.no_choices = []
  ∧ _parse Reference.strict_or_raise Fixtures.no_choices = Raise IndexError.
Proof.
  assert (Forall (λ a, ∃ v, Reference.strict_or_raise a = Ret v) ["{}"]) as Hall.
  { repeat constructor. eexists. vm_compute. reflexivity. }
  split; [reflexivity|]. split; [exact Hall|]. split.
  - apply (proj1 (parse_returns_iff Reference.strict_or_raise Fixtures.two_calls)).
    eexists. split; [reflexivity|]. exact Hall.
  - split; [reflexivity|].
    apply (proj2 (parse_returns_iff Reference.strict_or_raise Fixtures.no_choices)).
    reflexivity.
Defined.

(** X16.  What the aggregator returns or raises depends on the chunk
    sequence only through the way it ends, the joined content and reasoning
    text, the last finish reason, the last usage signal and, index by
    index, the fragments of that index in their order: two streams that
    agree on these give the same result, however the fragments of
    different indices are interleaved or spread over chunks. *)
Theorem interleaving_does_not_matter
    (json_repair_loads : string → outcome json) (s s' : stream) :
  failure s = failure s' →
  join "" (content_substrings (delivered s)) = join "" (content_substrings (delivered s')) →
  join "" (reasoning_substrings (delivered s))
  = join "" (reasoning_substrings (delivered s')) →
  last (finish_reasons (delivered s)) = last (finish_reasons (delivered s')) →
  last (usage_signals (delivered s)) = last (usage_signals (delivered s')) →
  (∀ i, fragments_at i (delivered s) = fragments_at i (delivered s')) →
  _consume_stream json_repair_loads s = _consume_stream json_repair_loads s'.
Proof.
  intros Hf Hc Hr Hfr Hu Hfs. unfold _consume_stream. rewrite Hf.
  assert (Agg.tool_calls_by_index (aggregate (delivered s))
          = Agg.tool_calls_by_index (aggregate (delivered s'))) as ->.
  { apply map_eq. intros i. by rewrite !aggregate_entries, Hfs. }
  rewrite !aggregate_content, !aggregate_reasoning, !aggregate_finish_reason,
    !aggregate_usage.
  by rewrite Hc, Hr, Hfr, Hu.
Qed.

Lemma interleaving_does_not_matter_witness :
  (∀ i, fragments_at i Samples.tool_turn = fragments_at i Fixtures.regrouped_tool_turn)
  ∧ Samples.tool_turn ≠ Fixtures.regrouped_tool_turn
  ∧ _consume_stream Reference.repair_nothing Samples.tool_stream
    = _consume_stream Reference.repair_nothing (Stream Fixtures.regrouped_tool_turn None).
Proof.
  assert (∀ i, fragments_at i Samples.tool_turn
               = fragments_at i Fixtures.regrouped_tool_turn) as Hfs.
  { intros i.
    destruct (decide (i = 0)) as [->|H0]; [vm_compute; reflexivity|].
    destruct (decide (i = 1)) as [->|H1]; [vm_compute; reflexivity|].
    destruct (decide (i = 4)) as [->|H4]; [vm_compute; reflexivity|].
    unfold fragments_at, at_index.
    let l := eval vm_compute in (fragments Samples.tool_turn) in
    change (fragments Samples.tool_turn) with l.
    let l := eval vm_compute in (fragments Fixtures.regrouped_tool_turn) in
    change (fragments Fixtures.regrouped_tool_turn) with l.
    rewrite !filter_cons_False by (simpl; lia). reflexivity. }
  split; [exact Hfs|]. split; [discriminate|].
  apply interleaving_does_not_matter; try reflexivity. exact Hfs.
Defined.
